(** * Alert test data injector (alert_injector.py)

    A shallow embedding of
    [infrastructure/kubernetes/observability-alert-tests/alert_injector.py]:
    the [AlertInjector] that pushes synthetic metric batches to a push
    gateway, the [AlertVerifier] that polls the alert manager, and the
    dispatch of [main].

    The script talks to the outside through [requests], [time.time] and
    [time.sleep].  These are modelled by an explicit world (a clock and the
    log of HTTP exchanges), a [server] that decides every reply and how long
    it takes, and the instant at which the user presses Ctrl-C, if ever.
    The clock moves only while the script is blocked: in a request, for the
    latency of the reply, and in [time.sleep], for exactly the time asked.
    Python exceptions are an outcome of every computation.  Console output
    is not modelled.  [argparse] is a library the script configures and
    calls: [parse_args] is a parameter of [main], which maps a command line
    to a namespace or to the exit status with which it leaves the process. *)

From Stdlib Require Import ZArith List String Ascii Bool Lia.
From Stdlib Require Import SpecFloat.
Import ListNotations.

Local Open Scope string_scope.
Local Open Scope list_scope.
Local Open Scope Z_scope.

(** ** Python values *)

(** The exceptions the script can meet.  Every one of them but
    [KeyboardInterrupt] derives from [Exception]. *)
Inductive exn : Type :=
| KeyboardInterrupt
| RequestException      (* requests: connection refused, timeout, ... *)
| HTTPError             (* response.raise_for_status() *)
| JSONDecodeError       (* response.json() on a body that is not JSON *)
| AttributeError
| TypeError
| OverflowError
| ZeroDivisionError.

Definition is_Exception (e : exn) : bool :=
  match e with
  | KeyboardInterrupt => false
  | _ => true
  end.

(** What [json.loads] produces: [None], [bool], [int], [float], [str],
    [list] and [dict] (insertion ordered; a parsed object has every key
    once). *)
#[local] Set Warnings "-register-all".
Inductive json : Type :=
| JNull
| JBool (b : bool)
| JInt (n : Z)
| JFloat (f : spec_float)
| JStr (s : string)
| JArr (elems : list json)
| JObj (items : list (string * json)).

(** A pure computation that may raise. *)
Inductive result (A : Type) : Type :=
| Ok (a : A)
| Err (e : exn).
Arguments Ok {A} a.
Arguments Err {A} e.

Definition rbind {A B} (c : result A) (k : A -> result B) : result B :=
  match c with
  | Ok a => k a
  | Err e => Err e
  end.

Declare Scope result_scope.
Delimit Scope result_scope with result.
Notation "x <~ c ;; k" := (rbind c (fun x => k))
  (at level 61, c at next level, right associativity) : result_scope.

Fixpoint assoc (key : string) (items : list (string * json)) : option json :=
  match items with
  | [] => None
  | (k, v) :: rest => if String.eqb k key then Some v else assoc key rest
  end.

(** [d.get(key, default)]: only a [dict] has the method. *)
Definition py_get (d : json) (key : string) (default : json) : result json :=
  match d with
  | JObj items =>
      Ok (match assoc key items with Some v => v | None => default end)
  | _ => Err AttributeError
  end.

(** [v == s] for a [str] [s]: a value of another type is never equal. *)
Definition py_eq_str (v : json) (s : string) : bool :=
  match v with
  | JStr t => String.eqb t s
  | _ => false
  end.

(** [for a in v]: a [list] gives its elements, a [dict] its keys, a [str]
    its characters; nothing else is iterable. *)
Definition py_iter (v : json) : result (list json) :=
  match v with
  | JArr elems => Ok elems
  | JObj items => Ok (map (fun kv => JStr (fst kv)) items)
  | JStr s => Ok (map (fun c => JStr (String c EmptyString)) (list_ascii_of_string s))
  | _ => Err TypeError
  end.

Fixpoint contains (needle hay : string) : bool :=
  if prefix needle hay then true
  else match hay with
       | EmptyString => false
       | String _ rest => contains needle rest
       end.

(** [s in c] for a [str] [s]: a key of a [dict], an element of a [list], a
    substring of a [str]. *)
Definition py_in (s : string) (c : json) : result bool :=
  match c with
  | JObj items => Ok (match assoc s items with Some _ => true | None => false end)
  | JArr elems => Ok (existsb (fun v => py_eq_str v s) elems)
  | JStr t => Ok (contains s t)
  | _ => Err TypeError
  end.

(** ** Binary64 arithmetic, as Python's [float] *)

Definition prec : Z := 53.
Definition emax : Z := 1024.

Definition float_of_int (n : Z) : spec_float :=
  binary_normalize prec emax n 0 false.

Definition exact_int (n : Z) : spec_float :=
  match n with
  | Z0 => S754_zero false
  | Zpos p => S754_finite false p 0
  | Zneg p => S754_finite true p 0
  end.

(** [a / b] on two [int]s: the correctly rounded quotient of the exact
    integers; [ZeroDivisionError] for [b = 0], [OverflowError] when the
    quotient is out of the range of a [float]. *)
Definition int_true_divide (a b : Z) : result spec_float :=
  if b =? 0 then Err ZeroDivisionError
  else
    match SFdiv prec emax (exact_int a) (exact_int b) with
    | S754_infinity _ => Err OverflowError
    | q => Ok q
    end.

(** [x * n] for a [float] [x] and an [int] [n] (here always a small
    constant, converted exactly). *)
Definition float_mul_int (x : spec_float) (n : Z) : spec_float :=
  SFmul prec emax x (float_of_int n).

(** The conversion of an [int] operand that [x + n] makes for a [float] [x]:
    to the nearest [float], [OverflowError] ("int too large to convert to
    float") when that is out of range. *)
Definition int_to_float (n : Z) : result spec_float :=
  match float_of_int n with
  | S754_infinity _ => Err OverflowError
  | f => Ok f
  end.

(** An [int] that converts to a [float]. *)
Definition in_float_range (n : Z) : Prop :=
  exists f, int_to_float n = Ok f.

(** An [int] of at most 640 decimal digits.  [str] renders it, and so does
    an f-string, under every setting of the interpreter's limit on the
    conversion of integers to text: CPython 3.11 and later refuse, with
    [ValueError], an [int] longer than the limit, which is 4300 digits
    unless it is set otherwise and is never less than 640.  The opening
    [print] of an operation renders its integer arguments, and the resource
    payload the usage it states. *)
Definition printable (n : Z) : Prop := Z.abs n < 10 ^ 640.

(** ** Metric payloads

    The script builds the payload as text with an f-string.  The model keeps
    the lines of that text, in order, with every interpolated value as the
    value it is before [str] renders it. *)

Inductive MetricKind : Type := counter | histogram | gauge.

Inductive MetricValue : Type :=
| VInt (n : Z)
| VFloat (f : spec_float)
| VDecimal (text : string).   (* a decimal literal of the template *)

Inductive MetricLine : Type :=
| Blank
| TypeLine (name : string) (kind : MetricKind)
| Sample (name : string) (labels : list (string * string)) (value : MetricValue).

Definition Payload : Type := list MetricLine.

(** ** HTTP *)

Inductive Method : Type := GET | POST | DELETE.

Record Request : Type := mkRequest {
  method : Method;
  url : string;
  data : option Payload;
  headers : list (string * string)
}.

(** What the script reads from a [requests.Response]: the status code and,
    through [.json()], the parsed body ([None] when the body is not JSON). *)
Record Response : Type := mkResponse {
  status_code : Z;
  body_json : option json
}.

Inductive http_result : Type :=
| TransportError
| Answered (r : Response).

(** A reply comes after [latency] milliseconds. *)
Record Reply : Type := mkReply {
  latency : N;
  reply_result : http_result
}.

(** One request of the log; [outcome = None] when Ctrl-C cut it short. *)
Record Exchange : Type := mkExchange {
  started : Z;
  request : Request;
  finished : Z;
  outcome : option http_result
}.

(** ** The world *)

(** [time.time()] is a number of seconds; the model counts the clock in
    milliseconds. *)
Definition ticks_per_second : Z := 1000.

Record World : Type := mkWorld {
  clock : Z;
  trace : list Exchange
}.

(** How a computation ends: with a value, with an exception, or with its
    loop budget used up (shown below never to happen). *)
Inductive Outcome (A : Type) : Type :=
| Returned (a : A)
| Raised (e : exn)
| Diverged.
Arguments Returned {A} a.
Arguments Raised {A} e.
Arguments Diverged {A}.

Definition M (A : Type) : Type := World -> Outcome A * World.

Definition ret {A} (a : A) : M A := fun w => (Returned a, w).
Definition raise {A} (e : exn) : M A := fun w => (Raised e, w).
Definition diverge {A} : M A := fun w => (Diverged, w).

Definition bind {A B} (c : M A) (k : A -> M B) : M B :=
  fun w =>
    match c w with
    | (Returned a, w') => k a w'
    | (Raised e, w') => (Raised e, w')
    | (Diverged, w') => (Diverged, w')
    end.

Definition lift {A} (r : result A) : M A :=
  match r with
  | Ok a => ret a
  | Err e => raise e
  end.

(** [try: body except Exception as e: handler e] *)
Definition try_except {A} (body : M A) (handler : exn -> M A) : M A :=
  fun w =>
    match body w with
    | (Raised e, w') =>
        if is_Exception e then handler e w' else (Raised e, w')
    | other => other
    end.

Declare Scope py_scope.
Delimit Scope py_scope with py.
Notation "x <- c ;; k" := (bind c (fun x => k))
  (at level 61, c at next level, right associativity) : py_scope.
Notation "c ;;; k" := (bind c (fun _ => k))
  (at level 61, right associativity) : py_scope.
Local Open Scope py_scope.

(** ** The script's objects *)

Record AlertInjector : Type := mkAlertInjector {
  prometheus_url : string;
  pushgateway_url : string
}.

Record AlertVerifier : Type := mkAlertVerifier {
  alertmanager_url : string
}.

(** The namespace [parser.parse_args()] returns; [command] is [None] when
    no sub-command was given. *)
Record Namespace : Type := mkNamespace {
  arg_prometheus_url : string;
  arg_pushgateway_url : string;
  arg_alertmanager_url : string;
  command : option string;
  arg_service : string;
  arg_duration : Z;
  arg_latency : Z;
  arg_resource : string;
  arg_usage : Z;
  arg_alert_name : string;
  arg_timeout : Z
}.

(** How [parser.parse_args()] ends: with the namespace, or by leaving the
    process through [SystemExit] (argparse prints the help and exits with
    0, or reports what is wrong with the command line and exits with 2). *)
Inductive Parse : Type :=
| Parsed (args : Namespace)
| SystemExit (status : Z).

(** The names of the sub-parsers that [main] adds. *)
Definition known_command (c : string) : Prop :=
  c = "inject-error-rate" \/ c = "inject-latency" \/
  c = "inject-resource-exhaustion" \/ c = "clear" \/ c = "wait-for-alert".

(** A word of the command line that argparse reads as an option. *)
Definition is_option (word : string) : bool :=
  match word with
  | String c _ => Ascii.eqb c "-"
  | EmptyString => false
  end.

(** What the declaration of the parser settles about [parse_args],
    whatever the version of argparse.  It leaves the process with status 0
    (after [-h]) or 2 (after an error) and no other.  The [command] of a
    namespace is [None] or the name of one of the five sub-parsers: the
    names are the choices of the positional [command].  And a command line
    whose first word is no option is an error unless that word is one of
    the five names ("invalid choice"). *)
Definition argparse_contract (parse : list string -> Parse) : Prop :=
  (forall argv status,
      parse argv = SystemExit status -> status = 0 \/ status = 2) /\
  (forall argv args,
      parse argv = Parsed args ->
      command args = None \/
      exists c, command args = Some c /\ known_command c) /\
  (forall word rest,
      is_option word = false -> ~ known_command word ->
      parse (word :: rest) = SystemExit 2).

(** ** Reading payloads and alert records *)

(** The values of the samples called [name], in the order of the payload. *)
Fixpoint sample_values (name : string) (p : Payload) : list MetricValue :=
  match p with
  | [] => []
  | Sample n _ v :: rest =>
      if String.eqb n name then v :: sample_values name rest
      else sample_values name rest
  | _ :: rest => sample_values name rest
  end.

(** An entry of the alert list as the alert manager serves it: an object
    whose [status], when it has one, is an object. *)
Definition is_alert_record (a : json) : bool :=
  match a with
  | JObj items =>
      match assoc "status" items with
      | None | Some (JObj _) => true
      | Some _ => false
      end
  | _ => false
  end.

(** [status.state] is the string "active". *)
Definition is_active (a : json) : bool :=
  match a with
  | JObj items =>
      match assoc "status" items with
      | Some (JObj status) =>
          match assoc "state" status with
          | Some (JStr s) => String.eqb s "active"
          | _ => false
          end
      | _ => false
      end
  | _ => false
  end.

(** The JSON array fetched by a GET, when there is one: the request was
    answered, the status is no error status, the body is JSON and is an array
    of alert records.  Anything else is a transport or parse error. *)
Definition fetched_alerts (res : http_result) : option (list json) :=
  match res with
  | TransportError => None
  | Answered r =>
      if (400 <=? status_code r) && (status_code r <? 600) then None
      else
        match body_json r with
        | Some (JArr entries) =>
            if forallb is_alert_record entries then Some entries else None
        | _ => None
        end
  end.

(** The active alerts an exchange with the alert manager shows. *)
Definition seen (x : Exchange) : list json :=
  match outcome x with
  | Some res =>
      match fetched_alerts res with
      | Some entries => filter is_active entries
      | None => []
      end
  | None => []
  end.

(** [labels], when it is a mapping ([{}] when the alert has none). *)
Definition labels_of (a : json) : option (list (string * json)) :=
  match a with
  | JObj items =>
      match assoc "labels" items with
      | None => Some []
      | Some (JObj labels) => Some labels
      | Some _ => None
      end
  | _ => None
  end.

(** [annotations], when it is a mapping ([{}] when the alert has none). *)
Definition annotations_of (a : json) : option (list (string * json)) :=
  match a with
  | JObj items =>
      match assoc "annotations" items with
      | None => Some []
      | Some (JObj annotations) => Some annotations
      | Some _ => None
      end
  | _ => None
  end.

(** [labels.alertname] is the string [alert_name]. *)
Definition named (alert_name : string) (a : json) : Prop :=
  exists labels,
    labels_of a = Some labels /\
    assoc "alertname" labels = Some (JStr alert_name).

(** [a] is the first alert of [alerts] called [alert_name]. *)
Definition first_named (alert_name : string) (alerts : list json) (a : json)
    : Prop :=
  exists pre post,
    alerts = pre ++ a :: post /\
    named alert_name a /\ Forall (fun b => ~ named alert_name b) pre.

(** A poll fires for [alert_name] when some active alert it shows has that
    name. *)
Definition fires (alert_name : string) (x : Exchange) : Prop :=
  Exists (named alert_name) (seen x).




(** Requests that follow one another with [gap] milliseconds between the
    end of one and the start of the next, the first starting at [t]. *)
Fixpoint paced (gap t : Z) (polls : list Exchange) : Prop :=
  match polls with
  | [] => True
  | x :: rest => started x = t /\ paced gap (finished x + gap) rest
  end.

(** The clock after rounds that each end with [gap] of sleep. *)
Fixpoint after_rounds (gap t : Z) (issued : list Exchange) : Z :=
  match issued with
  | [] => t
  | x :: rest => after_rounds gap (finished x + gap) rest
  end.

(** ** Fixtures for concrete runs *)

Definition test_injector : AlertInjector :=
  mkAlertInjector "http://prometheus:9090" "http://pushgateway:9091".

Definition test_verifier : AlertVerifier :=
  mkAlertVerifier "http://alertmanager:9093".

Definition world0 : World := mkWorld 0 [].

(** A push gateway that answers every request after 50 ms with [status]. *)
Definition gateway (status : Z) : list Exchange -> Z -> Request -> Reply :=
  fun _ _ _ => mkReply 50 (Answered (mkResponse status None)).

(** A collaborator that cannot be reached. *)
Definition unreachable : list Exchange -> Z -> Request -> Reply :=
  fun _ _ _ => mkReply 50 TransportError.

(** An alert record as the alert manager serves it. *)
Definition alert_record (alertname service state : string) : json :=
  JObj [ ("labels", JObj [("alertname", JStr alertname);
                          ("service", JStr service)]);
         ("annotations", JObj [("summary", JStr "Error rate above 5%")]);
         ("status", JObj [("state", JStr state)]) ].

Definition high_error_rate : json :=
  alert_record "HighErrorRate" "test-service" "active".

Definition answer_alerts (alerts : list json) : Reply :=
  mkReply 50 (Answered (mkResponse 200 (Some (JArr alerts)))).

(** An alert manager that always shows [alerts]. *)
Definition alertmanager (alerts : list json)
    : list Exchange -> Z -> Request -> Reply :=
  fun _ _ _ => answer_alerts alerts.

(** The push gateway accepts every push with 202; the alert manager shows
    [HighErrorRate] from [delay] milliseconds on, and nothing before. *)
Definition test_bench (delay : Z) : list Exchange -> Z -> Request -> Reply :=
  fun _ now rq =>
    match method rq with
    | GET => if now <? delay then answer_alerts []
             else answer_alerts [high_error_rate]
    | _ => mkReply 50 (Answered (mkResponse 202 None))
    end.

Definition test_args (cmd : option string) : Namespace :=
  mkNamespace "http://prometheus:9090" "http://pushgateway:9091"
    "http://alertmanager:9093" cmd "test-service" 1 2000 "memory" 95
    "HighErrorRate" 60.

Section Script.

(** The three collaborators answer through [server]: the reply may depend on
    everything exchanged so far, on the time and on the request.  [sigint] is
    the instant of the user's Ctrl-C. *)
Variable server : list Exchange -> Z -> Request -> Reply.
Variable sigint : option Z.

(** Blocking until [deadline]: [Some t] when Ctrl-C arrives first, at [t]. *)
Definition interrupted (deadline : Z) (w : World) : option Z :=
  match sigint with
  | Some t => if t <? deadline then Some (Z.max (clock w) t) else None
  | None => None
  end.

Definition time_time : M Z := fun w => (Returned (clock w), w).

Definition time_sleep (secs : Z) : M unit :=
  fun w =>
    let deadline := clock w + secs * ticks_per_second in
    match interrupted deadline w with
    | Some t => (Raised KeyboardInterrupt, mkWorld t (trace w))
    | None => (Returned tt, mkWorld deadline (trace w))
    end.

Definition http (rq : Request) : M Response :=
  fun w =>
    let rp := server (trace w) (clock w) rq in
    let deadline := clock w + Z.of_N (latency rp) in
    match interrupted deadline w with
    | Some t =>
        (Raised KeyboardInterrupt,
         mkWorld t (trace w ++ [mkExchange (clock w) rq t None]))
    | None =>
        let w' := mkWorld deadline
                    (trace w ++ [mkExchange (clock w) rq deadline
                                   (Some (reply_result rp))]) in
        match reply_result rp with
        | TransportError => (Raised RequestException, w')
        | Answered r => (Returned r, w')
        end
    end.

Definition requests_post (u : string) (d : Payload)
    (h : list (string * string)) : M Response :=
  http (mkRequest POST u (Some d) h).

Definition requests_delete (u : string) : M Response :=
  http (mkRequest DELETE u None []).

Definition requests_get (u : string) : M Response :=
  http (mkRequest GET u None []).

(** [response.status_code in [200, 202]] *)
Definition accepted (r : Response) : bool :=
  (status_code r =? 200) || (status_code r =? 202).

(** ** AlertInjector *)

Definition push_url (self : AlertInjector) (service : string) : string :=
  pushgateway_url self ++ "/metrics/job/alert_test/instance/" ++ service.

Definition service_label (service : string) : list (string * string) :=
  [("service", service)].

Definition bucket (service le : string) (n : Z) : MetricLine :=
  Sample "http_request_duration_seconds_bucket"
         [("service", service); ("le", le)] (VInt n).

Definition error_rate_metrics (service : string) : Payload :=
  [ Blank;
    TypeLine "http_requests_total" counter;
    Sample "http_requests_total"
           [("service", service); ("status", "200")] (VInt 100);
    Sample "http_requests_total"
           [("service", service); ("status", "500")] (VInt 150);
    Blank;
    TypeLine "http_request_duration_seconds" histogram;
    bucket service "0.1" 50;
    bucket service "0.5" 100;
    bucket service "1.0" 200;
    bucket service "+Inf" 250;
    Sample "http_request_duration_seconds_sum" (service_label service)
           (VDecimal "125.5");
    Sample "http_request_duration_seconds_count" (service_label service)
           (VInt 250) ].

(** The f-string evaluates [latency_ms / 1000 * 100] and so may raise. *)
Definition latency_metrics (service : string) (latency_ms : Z)
    : result Payload :=
  (q <~ int_true_divide latency_ms 1000 ;;
   Ok [ Blank;
        TypeLine "http_request_duration_seconds" histogram;
        bucket service "0.1" 10;
        bucket service "0.5" 20;
        bucket service "1.0" 30;
        bucket service "2.0" 40;
        bucket service "5.0" 80;
        bucket service "+Inf" 100;
        Sample "http_request_duration_seconds_sum" (service_label service)
               (VFloat (float_mul_int q 100));
        Sample "http_request_duration_seconds_count" (service_label service)
               (VInt 100) ])%result.

(** The [if]/[elif]/[else] on [resource_type]; [None] is the [else]
    branch, which builds nothing. *)
Definition resource_metrics (service resource_type : string)
    (usage_percent : Z) : option Payload :=
  if String.eqb resource_type "memory" then
    Some [ Blank;
           TypeLine "container_memory_usage_bytes" gauge;
           Sample "container_memory_usage_bytes" [("container", service)]
                  (VInt (usage_percent * 10 ^ 7));
           Blank;
           TypeLine "container_spec_memory_limit_bytes" gauge;
           Sample "container_spec_memory_limit_bytes" [("container", service)]
                  (VInt (100 * 10 ^ 7)) ]
  else if String.eqb resource_type "cpu" then
    Some [ Blank;
           TypeLine "container_cpu_usage_seconds_total" counter;
           Sample "container_cpu_usage_seconds_total" [("container", service)]
                  (VInt (usage_percent * 1000));
           Blank;
           TypeLine "container_spec_cpu_quota" gauge;
           Sample "container_spec_cpu_quota" [("container", service)]
                  (VInt 100000) ]
  else None.

(** Every round of an injection loop ends with [time.sleep(15)], so no more
    than [duration_minutes * 60 / 15] rounds start before [end_time]; the
    loop condition is evaluated once more. *)
Definition inject_fuel (duration_minutes : Z) : nat :=
  S (Z.to_nat (duration_minutes * 4)).

(** Inside a loop body, [inl] carries on and [inr b] is [return b]. *)
Fixpoint error_rate_loop (fuel : nat) (self : AlertInjector)
    (service : string) (end_time metrics_injected : Z) : M bool :=
  match fuel with
  | O => diverge
  | S fuel' =>
      now <- time_time ;;
      if now <? end_time then
        let metrics := error_rate_metrics service in
        step <- try_except
                  (response <- requests_post (push_url self service) metrics
                                 [("Content-Type", "text/plain")] ;;
                   if accepted response
                   then ret (inl (metrics_injected + 1))
                   else ret (inl metrics_injected))
                  (fun _ => ret (inr false)) ;;
        match step with
        | inr b => ret b
        | inl injected =>
            time_sleep 15 ;;;
            error_rate_loop fuel' self service end_time injected
        end
      else ret true
  end.

(** [end_time = start_time + (duration_minutes * 60)] adds an [int] to a
    [float]: the [int] is converted first, which raises when it is out of
    the range of a [float].  The sum itself is kept on the clock of the
    model. *)
Definition inject_high_error_rate (self : AlertInjector) (service : string)
    (duration_minutes : Z) : M bool :=
  start_time <- time_time ;;
  lift (int_to_float (duration_minutes * 60)) ;;;
  let end_time := start_time + duration_minutes * 60 * ticks_per_second in
  error_rate_loop (inject_fuel duration_minutes) self service end_time 0.

Fixpoint latency_loop (fuel : nat) (self : AlertInjector)
    (service : string) (latency_ms end_time : Z) : M bool :=
  match fuel with
  | O => diverge
  | S fuel' =>
      now <- time_time ;;
      if now <? end_time then
        metrics <- lift (latency_metrics service latency_ms) ;;
        step <- try_except
                  (response <- requests_post (push_url self service) metrics
                                 [] ;;
                   (* both branches only print *)
                   if accepted response then ret (inl tt) else ret (inl tt))
                  (fun _ => ret (inr false)) ;;
        match step with
        | inr b => ret b
        | inl _ =>
            time_sleep 15 ;;;
            latency_loop fuel' self service latency_ms end_time
        end
      else ret true
  end.

Definition inject_high_latency (self : AlertInjector) (service : string)
    (latency_ms duration_minutes : Z) : M bool :=
  start_time <- time_time ;;
  lift (int_to_float (duration_minutes * 60)) ;;;
  let end_time := start_time + duration_minutes * 60 * ticks_per_second in
  latency_loop (inject_fuel duration_minutes) self service latency_ms end_time.

Fixpoint resource_loop (fuel : nat) (self : AlertInjector)
    (service resource_type : string) (usage_percent end_time : Z) : M bool :=
  match fuel with
  | O => diverge
  | S fuel' =>
      now <- time_time ;;
      if now <? end_time then
        match resource_metrics service resource_type usage_percent with
        | None => ret false
        | Some metrics =>
            step <- try_except
                      (response <- requests_post (push_url self service)
                                     metrics [] ;;
                       (* the only branch prints *)
                       if accepted response then ret (inl tt) else ret (inl tt))
                      (fun _ => ret (inr false)) ;;
            match step with
            | inr b => ret b
            | inl _ =>
                time_sleep 15 ;;;
                resource_loop fuel' self service resource_type usage_percent
                              end_time
            end
        end
      else ret true
  end.

Definition inject_resource_exhaustion (self : AlertInjector)
    (service resource_type : string) (usage_percent duration_minutes : Z)
    : M bool :=
  start_time <- time_time ;;
  lift (int_to_float (duration_minutes * 60)) ;;;
  let end_time := start_time + duration_minutes * 60 * ticks_per_second in
  resource_loop (inject_fuel duration_minutes) self service resource_type
                usage_percent end_time.

Definition clear_injected_metrics (self : AlertInjector) (service : string)
    : M bool :=
  try_except
    (response <- requests_delete (push_url self service) ;;
     if accepted response then ret true else ret false)
    (fun _ => ret false).

(** ** AlertVerifier *)

(** [response.raise_for_status()] *)
Definition raise_for_status (r : Response) : M unit :=
  if (400 <=? status_code r) && (status_code r <? 600)
  then raise HTTPError else ret tt.

(** [response.json()] *)
Definition response_json (r : Response) : M json :=
  match body_json r with
  | Some v => ret v
  | None => raise JSONDecodeError
  end.

(** [a.get('status', {}).get('state') == 'active'] *)
Definition state_is_active (a : json) : result bool :=
  (status <~ py_get a "status" (JObj []) ;;
   state <~ py_get status "state" JNull ;;
   Ok (py_eq_str state "active"))%result.

(** The list comprehension over the entries, in order. *)
Fixpoint active_only (alerts : list json) : result (list json) :=
  match alerts with
  | [] => Ok []
  | a :: rest =>
      (keep <~ state_is_active a ;;
       kept <~ active_only rest ;;
       Ok (if keep then a :: kept else kept))%result
  end.

Definition get_active_alerts (self : AlertVerifier) : M (list json) :=
  try_except
    (response <- requests_get (alertmanager_url self ++ "/api/v2/alerts") ;;
     raise_for_status response ;;;
     alerts <- response_json response ;;
     lift (entries <~ py_iter alerts ;; active_only entries)%result)
    (fun _ => ret []).

(** [alert.get('labels', {}).get('alertname') == alert_name] *)
Definition alertname_is (alert : json) (alert_name : string) : result bool :=
  (labels <~ py_get alert "labels" (JObj []) ;;
   name <~ py_get labels "alertname" JNull ;;
   Ok (py_eq_str name alert_name))%result.

(** The [for] loop of [wait_for_alert]: [true] is its [return True]. *)
Fixpoint alert_fired (alerts : list json) (alert_name : string)
    : result bool :=
  match alerts with
  | [] => Ok false
  | alert :: rest =>
      (hit <~ alertname_is alert alert_name ;;
       if hit then Ok true else alert_fired rest alert_name)%result
  end.

(** Every round that finds nothing ends with [time.sleep(5)]. *)
Definition wait_fuel (timeout : Z) : nat :=
  S (Z.to_nat ((timeout + 4) / 5)).

Fixpoint wait_loop (fuel : nat) (self : AlertVerifier) (alert_name : string)
    (timeout start_time : Z) : M bool :=
  match fuel with
  | O => diverge
  | S fuel' =>
      now <- time_time ;;
      if now - start_time <? timeout * ticks_per_second then
        alerts <- get_active_alerts self ;;
        fired <- lift (alert_fired alerts alert_name) ;;
        if fired then
          _elapsed <- time_time ;;
          ret true
        else
          time_sleep 5 ;;;
          wait_loop fuel' self alert_name timeout start_time
      else ret false
  end.

Definition wait_for_alert (self : AlertVerifier) (alert_name : string)
    (timeout : Z) : M bool :=
  start_time <- time_time ;;
  wait_loop (wait_fuel timeout) self alert_name timeout start_time.

(** The inner loop over [expected_labels.items()]. *)
Fixpoint labels_agree (labels : json) (expected : list (string * string))
    : result bool :=
  match expected with
  | [] => Ok true
  | (key, expected_value) :: rest =>
      (actual_value <~ py_get labels key JNull ;;
       if negb (py_eq_str actual_value expected_value) then Ok false
       else labels_agree labels rest)%result
  end.

Fixpoint verify_labels_in (alerts : list json) (alert_name : string)
    (expected_labels : list (string * string)) : result bool :=
  match alerts with
  | [] => Ok false
  | alert :: rest =>
      (hit <~ alertname_is alert alert_name ;;
       if hit then
         labels <~ py_get alert "labels" (JObj []) ;;
         labels_agree labels expected_labels
       else verify_labels_in rest alert_name expected_labels)%result
  end.

Definition verify_alert_labels (self : AlertVerifier) (alert_name : string)
    (expected_labels : list (string * string)) : M bool :=
  alerts <- get_active_alerts self ;;
  lift (verify_labels_in alerts alert_name expected_labels).

(** The inner loop over [required_annotations]. *)
Fixpoint annotations_present (annotations : json) (required : list string)
    : result bool :=
  match required with
  | [] => Ok true
  | annotation :: rest =>
      (present <~ py_in annotation annotations ;;
       if negb present then Ok false
       else annotations_present annotations rest)%result
  end.

Fixpoint verify_annotations_in (alerts : list json) (alert_name : string)
    (required_annotations : list string) : result bool :=
  match alerts with
  | [] => Ok false
  | alert :: rest =>
      (hit <~ alertname_is alert alert_name ;;
       if hit then
         annotations <~ py_get alert "annotations" (JObj []) ;;
         annotations_present annotations required_annotations
       else verify_annotations_in rest alert_name required_annotations)%result
  end.

Definition verify_alert_annotations (self : AlertVerifier)
    (alert_name : string) (required_annotations : list string) : M bool :=
  alerts <- get_active_alerts self ;;
  lift (verify_annotations_in alerts alert_name required_annotations).

(** ** main *)

(** [not args.command]: [None] and the empty string are falsy. *)
Definition no_command (args : Namespace) : bool :=
  match command args with
  | None => true
  | Some c => String.eqb c ""
  end.

Definition command_is (args : Namespace) (name : string) : bool :=
  match command args with
  | Some c => String.eqb c name
  | None => false
  end.

(** [try: body except KeyboardInterrupt: return 130
    except Exception: return 1] *)
Definition try_main (body : M Z) : M Z :=
  fun w =>
    match body w with
    | (Raised KeyboardInterrupt, w') => (Returned 130, w')
    | (Raised e, w') =>
        if is_Exception e then (Returned 1, w') else (Raised e, w')
    | other => other
    end.

Definition exit_status (success : bool) : M Z :=
  ret (if success then 0 else 1).

(** [main] from [if not args.command] on: what it does with the namespace
    that [parse_args] returned. *)
Definition dispatch (args : Namespace) : M Z :=
  if no_command args then ret 1
  else
    let injector :=
      mkAlertInjector (arg_prometheus_url args) (arg_pushgateway_url args) in
    let verifier := mkAlertVerifier (arg_alertmanager_url args) in
    try_main
      (if command_is args "inject-error-rate" then
         success <- inject_high_error_rate injector (arg_service args)
                      (arg_duration args) ;;
         exit_status success
       else if command_is args "inject-latency" then
         success <- inject_high_latency injector (arg_service args)
                      (arg_latency args) (arg_duration args) ;;
         exit_status success
       else if command_is args "inject-resource-exhaustion" then
         success <- inject_resource_exhaustion injector (arg_service args)
                      (arg_resource args) (arg_usage args)
                      (arg_duration args) ;;
         exit_status success
       else if command_is args "clear" then
         success <- clear_injected_metrics injector (arg_service args) ;;
         exit_status success
       else if command_is args "wait-for-alert" then
         success <- wait_for_alert verifier (arg_alert_name args)
                      (arg_timeout args) ;;
         exit_status success
       else ret 1).

(** [parser.parse_args()] on the command line, for the parser that [main]
    builds: the three URL options, and the sub-commands [inject-error-rate],
    [inject-latency], [inject-resource-exhaustion], [clear] and
    [wait-for-alert] with their options. *)
Variable parse_args : list string -> Parse.

(** The status the process exits with: [sys.exit(main())] exits with what
    [main] returns, and a [SystemExit] that [parse_args] raises goes through
    [main], which has no handler around the call, and exits with its own
    status. *)
Definition main (argv : list string) : M Z :=
  match parse_args argv with
  | SystemExit status => ret status
  | Parsed args => dispatch args
  end.

(** * Properties *)

(** ** One request *)

Ltac run := unfold bind, ret, raise, lift, try_except, time_time; simpl.

Lemma interrupted_sigint deadline w t :
  interrupted deadline w = Some t -> sigint <> None.
Proof.
  unfold interrupted. destruct sigint; [discriminate | discriminate].
Qed.

(** What one request does to the world: one more exchange in the log, and
    the value, the exception or the interrupt that comes back. *)
Lemma http_spec rq w :
  let rp := server (trace w) (clock w) rq in
  let deadline := clock w + Z.of_N (latency rp) in
  exists x,
    trace (snd (http rq w)) = trace w ++ [x] /\
    request x = rq /\ started x = clock w /\
    finished x = clock (snd (http rq w)) /\
    clock w <= clock (snd (http rq w)) /\
    outcome x = match interrupted deadline w with
                | Some _ => None
                | None => Some (reply_result rp)
                end /\
    match fst (http rq w) with
    | Returned r => outcome x = Some (Answered r) /\ reply_result rp = Answered r
    | Raised e =>
        (e = RequestException /\ outcome x = Some TransportError) \/
        (e = KeyboardInterrupt /\ outcome x = None /\ sigint <> None)
    | Diverged => False
    end.
Proof.
  intros rp deadline. unfold http. fold rp. fold deadline.
  destruct (interrupted deadline w) as [t|] eqn:Hi.
  - eexists; simpl; repeat split; try reflexivity.
    + unfold interrupted in Hi. destruct sigint; [|discriminate].
      destruct (z <? deadline); inversion Hi; lia.
    + right; repeat split; eauto using interrupted_sigint.
  - destruct (reply_result rp) eqn:Hr; eexists; simpl; repeat split;
      try reflexivity; try (subst deadline; lia); auto.
Qed.

(** ** The injection loops *)

Definition answered (x : Exchange) : Prop :=
  exists r, outcome x = Some (Answered r).

Definition transport_failed (x : Exchange) : Prop :=
  outcome x = Some TransportError.

Definition posted_to (u : string) (x : Exchange) : Prop :=
  method (request x) = POST /\ url (request x) = u.

(** How a run of pushes can end: all of them answered and [True]; the last
    one failed in transport and [False]; an exception that leaves the
    function, Ctrl-C or one of [fails], with no transport failure before. *)
Definition push_run (fails : exn -> Prop) (r : Outcome bool)
    (issued : list Exchange) : Prop :=
  match r with
  | Returned true => Forall answered issued
  | Returned false =>
      exists pre x,
        issued = pre ++ [x] /\ Forall answered pre /\ transport_failed x
  | Raised e =>
      Forall (fun x => ~ transport_failed x) issued /\
      ((e = KeyboardInterrupt /\ sigint <> None) \/ fails e)
  | Diverged => False
  end.

Lemma answered_not_failed x : answered x -> ~ transport_failed x.
Proof. intros [r Hr] Hf. unfold transport_failed in Hf. congruence. Qed.

Lemma push_run_cons fails r x issued :
  answered x -> push_run fails r issued -> push_run fails r (x :: issued).
Proof.
  intros Hx. destruct r as [[|]|e|]; simpl; auto.
  - intros (pre & y & -> & Hpre & Hy).
    exists (x :: pre), y. auto.
  - intros [Hall He]. split; auto using answered_not_failed.
Qed.

Lemma push_run_interrupted fails x :
  ~ transport_failed x -> sigint <> None ->
  push_run fails (Raised KeyboardInterrupt) [x].
Proof. intros Hx Hs. simpl. auto. Qed.

Lemma sleep_spec secs w :
  0 <= secs ->
  (time_sleep secs w = (Returned tt, mkWorld (clock w + secs * 1000) (trace w)))
  \/ (exists t, time_sleep secs w = (Raised KeyboardInterrupt, mkWorld t (trace w))
                /\ sigint <> None).
Proof.
  intros Hs. unfold time_sleep, ticks_per_second.
  destruct (interrupted _ w) as [t|] eqn:Hi; [right | left; reflexivity].
  exists t. eauto using interrupted_sigint.
Qed.

Lemma bind_run {A B} (c : M A) (k : A -> M B) w :
  bind c k w =
  match c w with
  | (Returned a, w') => k a w'
  | (Raised e, w') => (Raised e, w')
  | (Diverged, w') => (Diverged, w')
  end.
Proof. reflexivity. Qed.

Lemma lift_ok {A} (a : A) w : lift (Ok a) w = (Returned a, w).
Proof. reflexivity. Qed.

Lemma lift_err {A} e w : lift (@Err A e) w = (Raised e, w).
Proof. reflexivity. Qed.

Lemma bind_time {B} (k : Z -> M B) w : bind time_time k w = k (clock w) w.
Proof. reflexivity. Qed.

(** The [try] block of an injection loop: one POST, then a body that only
    prints; [except Exception] turns a transport error into [return False]. *)
Lemma attempt_spec {A} u d h (k : Response -> M (A + bool)) w :
  (forall r w', exists a, k r w' = (Returned (inl a), w')) ->
  exists x w1,
    trace w1 = trace w ++ [x] /\ request x = mkRequest POST u (Some d) h /\
    clock w <= clock w1 /\
    ((exists a,
        try_except (bind (requests_post u d h) k) (fun _ => ret (inr false)) w
          = (Returned (inl a), w1) /\ answered x)
     \/ (try_except (bind (requests_post u d h) k) (fun _ => ret (inr false)) w
          = (Returned (inr false), w1) /\ transport_failed x)
     \/ (try_except (bind (requests_post u d h) k) (fun _ => ret (inr false)) w
          = (Raised KeyboardInterrupt, w1) /\ sigint <> None
          /\ ~ transport_failed x)).
Proof.
  intros Hk. unfold try_except, requests_post. rewrite bind_run.
  pose proof (http_spec (mkRequest POST u (Some d) h) w) as Hh.
  cbv zeta in Hh. destruct Hh as (x & Htr & Hrq & _ & _ & Hclk & _ & Hout).
  destruct (http _ w) as [r1 w1]. cbn [fst snd] in *.
  exists x, w1. repeat split; auto.
  destruct r1 as [resp|e|]; [| |contradiction].
  - left. destruct (Hk resp w1) as [a ->]. exists a. split; auto.
    exists resp. tauto.
  - destruct Hout as [[-> Hout]|(-> & Hout & Hsig)]; auto.
    right; right. repeat split; auto.
    unfold transport_failed. congruence.
Qed.

Lemma error_rate_loop_unfold fuel self service end_time injected :
  error_rate_loop (S fuel) self service end_time injected =
  (now <- time_time ;;
   if now <? end_time then
     step <- try_except
               (response <- requests_post (push_url self service)
                              (error_rate_metrics service)
                              [("Content-Type", "text/plain")] ;;
                if accepted response
                then ret (inl (injected + 1))
                else ret (inl injected))
               (fun _ => ret (inr false)) ;;
     match step with
     | inr b => ret b
     | inl injected' =>
         time_sleep 15 ;;;
         error_rate_loop fuel self service end_time injected'
     end
   else ret true).
Proof. reflexivity. Qed.

Ltac attempt :=
  match goal with
  | |- context [try_except (bind (requests_post ?u ?d ?h) ?k) _ ?w] =>
      let x := fresh "x" in
      let w1 := fresh "w1" in
      let Htr := fresh "Htr" in
      let Hclk := fresh "Hclk" in
      let Hrun := fresh "Hrun" in
      let Hrq := fresh "Hrq" in
      destruct (attempt_spec u d h k w) as (x & w1 & Htr & Hrq & Hclk & Hrun);
      [|assert (Hpost : posted_to u x)
          by (unfold posted_to; rewrite Hrq; split; reflexivity)]
  end.

Ltac loop_start unfold_eq w end_time Hlt :=
  rewrite unfold_eq, bind_time;
  destruct (clock w <? end_time) eqn:Hlt;
  try (exists []; rewrite app_nil_r; simpl; auto; fail);
  apply Z.ltb_lt in Hlt; try lia.

Ltac loop_stop x :=
  exists [x]; cbn [fst snd];
  repeat split; auto using push_run_interrupted;
  try (simpl; auto; fail);
  try (exists [], x; repeat split; auto).

Lemma error_rate_loop_run self service end_time n :
  forall injected w,
    end_time - clock w <= 15000 * Z.of_nat n ->
    exists issued,
      trace (snd (error_rate_loop (S n) self service end_time injected w))
        = trace w ++ issued /\
      Forall (posted_to (push_url self service)) issued /\
      push_run (fun _ => False)
        (fst (error_rate_loop (S n) self service end_time injected w)) issued.
Proof.
  induction n as [|n IH]; intros injected w Hfuel;
    loop_start error_rate_loop_unfold w end_time Hlt.
  rewrite bind_run. attempt.
  { intros r w'. unfold ret. destruct (accepted r); eauto. }
  destruct Hrun as [(k & -> & Hx)|[[-> Hx]|(-> & Hsig & Hx)]];
    [|loop_stop x..].
  rewrite bind_run.
  destruct (sleep_spec 15 w1) as [Hs|(t & Hs & Hsig)]; [lia| |]; rewrite Hs;
    [|loop_stop x; auto using answered_not_failed].
  specialize (IH k (mkWorld (clock w1 + 15 * 1000) (trace w1))).
  destruct IH as (issued & Ht & Hp & Hr); [cbn [clock]; lia|].
  destruct (error_rate_loop (S n) _ _ _ _ _) as [r2 w2].
  cbn [fst snd trace] in *.
  exists (x :: issued). rewrite Ht, Htr, <- app_assoc.
  repeat split; auto. apply push_run_cons; auto.
Qed.

Lemma latency_loop_unfold fuel self service latency_ms end_time :
  latency_loop (S fuel) self service latency_ms end_time =
  (now <- time_time ;;
   if now <? end_time then
     metrics <- lift (latency_metrics service latency_ms) ;;
     step <- try_except
               (response <- requests_post (push_url self service) metrics [] ;;
                if accepted response then ret (inl tt) else ret (inl tt))
               (fun _ => ret (inr false)) ;;
     match step with
     | inr b => ret b
     | inl _ =>
         time_sleep 15 ;;;
         latency_loop fuel self service latency_ms end_time
     end
   else ret true).
Proof. reflexivity. Qed.

Lemma latency_loop_run self service latency_ms end_time n :
  forall w,
    end_time - clock w <= 15000 * Z.of_nat n ->
    exists issued,
      trace (snd (latency_loop (S n) self service latency_ms end_time w))
        = trace w ++ issued /\
      Forall (posted_to (push_url self service)) issued /\
      Forall (fun x => exists p, latency_metrics service latency_ms = Ok p /\
                                 data (request x) = Some p) issued /\
      push_run (fun e => latency_metrics service latency_ms = Err e)
        (fst (latency_loop (S n) self service latency_ms end_time w)) issued.
Proof.
  induction n as [|n IH]; intros w Hfuel;
    loop_start latency_loop_unfold w end_time Hlt.
  rewrite bind_run.
  destruct (latency_metrics service latency_ms) as [metrics|e] eqn:Hm.
  2:{ rewrite lift_err. exists []. rewrite app_nil_r. cbn [fst snd push_run].
      repeat split; auto. }
  rewrite lift_ok.
  rewrite bind_run. attempt.
  { intros r w'. unfold ret. destruct (accepted r); eauto. }
  assert (Hdata : exists p, Ok metrics = Ok p /\ data (request x) = Some p)
    by (exists metrics; rewrite Hrq; auto).
  destruct Hrun as [(k & -> & Hx)|[[-> Hx]|(-> & Hsig & Hx)]];
    [|loop_stop x..].
  rewrite bind_run.
  destruct (sleep_spec 15 w1) as [Hs|(t & Hs & Hsig)]; [lia| |]; rewrite Hs;
    [|loop_stop x; auto using answered_not_failed].
  specialize (IH (mkWorld (clock w1 + 15 * 1000) (trace w1))).
  destruct IH as (issued & Ht & Hp & Hd & Hr); [cbn [clock]; lia|].
  destruct (latency_loop (S n) _ _ _ _ _) as [r2 w2].
  cbn [fst snd trace] in *.
  exists (x :: issued). rewrite Ht, Htr, <- app_assoc.
  repeat split; auto. apply push_run_cons; auto.
Qed.

Lemma resource_loop_unfold fuel self service resource_type usage_percent
    end_time :
  resource_loop (S fuel) self service resource_type usage_percent end_time =
  (now <- time_time ;;
   if now <? end_time then
     match resource_metrics service resource_type usage_percent with
     | None => ret false
     | Some metrics =>
         step <- try_except
                   (response <- requests_post (push_url self service)
                                  metrics [] ;;
                    if accepted response then ret (inl tt) else ret (inl tt))
                   (fun _ => ret (inr false)) ;;
         match step with
         | inr b => ret b
         | inl _ =>
             time_sleep 15 ;;;
             resource_loop fuel self service resource_type usage_percent
                           end_time
         end
     end
   else ret true).
Proof. reflexivity. Qed.

Lemma resource_loop_run self service resource_type usage_percent end_time n :
  resource_metrics service resource_type usage_percent <> None ->
  forall w,
    end_time - clock w <= 15000 * Z.of_nat n ->
    exists issued,
      trace (snd (resource_loop (S n) self service resource_type
                    usage_percent end_time w))
        = trace w ++ issued /\
      Forall (posted_to (push_url self service)) issued /\
      push_run (fun _ => False)
        (fst (resource_loop (S n) self service resource_type usage_percent
                end_time w)) issued.
Proof.
  intros Hvalid.
  induction n as [|n IH]; intros w Hfuel;
    loop_start resource_loop_unfold w end_time Hlt.
  destruct (resource_metrics service resource_type usage_percent)
    as [metrics|]; [|congruence].
  rewrite bind_run. attempt.
  { intros r w'. unfold ret. destruct (accepted r); eauto. }
  destruct Hrun as [(k & -> & Hx)|[[-> Hx]|(-> & Hsig & Hx)]];
    [|loop_stop x..].
  rewrite bind_run.
  destruct (sleep_spec 15 w1) as [Hs|(t & Hs & Hsig)]; [lia| |]; rewrite Hs;
    [|loop_stop x; auto using answered_not_failed].
  specialize (IH (mkWorld (clock w1 + 15 * 1000) (trace w1))).
  destruct IH as (issued & Ht & Hp & Hr); [cbn [clock]; lia|].
  destruct (resource_loop (S n) _ _ _ _ _ _) as [r2 w2].
  cbn [fst snd trace] in *.
  exists (x :: issued). rewrite Ht, Htr, <- app_assoc.
  repeat split; auto. apply push_run_cons; auto.
Qed.

(** ** What the injectors report *)

(** The report of an injection started in [w]: every request it issued is a
    POST to [u]; a transport error is the last thing that happens and makes
    the result [False]; the result is [True] exactly when no request failed
    in transport; and the call returns unless Ctrl-C arrives or building the
    payload raises (an exception of [fails]). *)
Definition injection_report (u : string) (fails : exn -> Prop) (w : World)
    (run : Outcome bool * World) : Prop :=
  exists issued,
    trace (snd run) = trace w ++ issued /\
    Forall (posted_to u) issued /\
    (forall pre x post,
        issued = pre ++ x :: post -> transport_failed x ->
        post = [] /\ fst run = Returned false) /\
    match fst run with
    | Returned b => b = true <-> Forall (fun x => ~ transport_failed x) issued
    | Raised e => (e = KeyboardInterrupt /\ sigint <> None) \/ fails e
    | Diverged => False
    end.

Lemma failed_is_last (pre pre' post : list Exchange) x y :
  pre ++ [x] = pre' ++ y :: post ->
  Forall (fun z => ~ transport_failed z) pre -> transport_failed y ->
  post = [].
Proof.
  intros Heq Hpre Hy.
  destruct (exists_last (l := y :: post)) as (init & z & Hz); [discriminate|].
  destruct post as [|p post]; [reflexivity|exfalso].
  rewrite Hz, app_assoc in Heq. apply app_inj_tail in Heq as [-> _].
  destruct init as [|i init]; [discriminate|].
  injection Hz as <- _.
  rewrite Forall_forall in Hpre. apply (Hpre y); auto.
  apply in_or_app. right. left. reflexivity.
Qed.

Lemma push_run_report u fails fails' w run issued :
  trace (snd run) = trace w ++ issued ->
  Forall (posted_to u) issued ->
  push_run fails (fst run) issued ->
  (forall e, fails e -> fails' e) ->
  injection_report u fails' w run.
Proof.
  intros Ht Hp Hr Hf. exists issued.
  split; [exact Ht|]. split; [exact Hp|].
  split; destruct (fst run) as [[|]|e|]; cbn [push_run] in Hr; try tauto.
  - intros pre x post -> Hx. exfalso.
    rewrite Forall_forall in Hr.
    apply (answered_not_failed x); auto.
    apply Hr, in_or_app. right. left. reflexivity.
  - intros pre x post Heq Hx. split; [|reflexivity].
    destruct Hr as (pre0 & x0 & -> & Hpre & Hx0).
    apply (failed_is_last pre0 pre post x0 x); auto.
    eapply Forall_impl; [|exact Hpre]. apply answered_not_failed.
  - intros pre x post -> Hx. exfalso.
    destruct Hr as [Hr _]. rewrite Forall_forall in Hr.
    apply (Hr x); auto. apply in_or_app. right. left. reflexivity.
  - split; auto. intros _.
    eapply Forall_impl; [|exact Hr]. apply answered_not_failed.
  - split; [discriminate|]. intros Hall. exfalso.
    destruct Hr as (pre0 & x0 & -> & Hpre & Hx0).
    rewrite Forall_forall in Hall.
    apply (Hall x0); auto. apply in_or_app. right. left. reflexivity.
  - destruct Hr as [_ [Hr|Hr]]; auto.
Qed.

Lemma inject_fuel_enough duration_minutes w :
  clock w + duration_minutes * 60 * ticks_per_second - clock w
  <= 15000 * Z.of_nat (Z.to_nat (duration_minutes * 4)).
Proof. unfold ticks_per_second. lia. Qed.

Lemma int_to_float_err n e : int_to_float n = Err e -> e = OverflowError.
Proof.
  unfold int_to_float. destruct (float_of_int n); intros [=]; auto.
Qed.

Lemma out_of_float_range n :
  ~ in_float_range n <-> int_to_float n = Err OverflowError.
Proof.
  unfold in_float_range. split.
  - intros Hn. destruct (int_to_float n) as [f|e] eqn:Hf.
    + exfalso. apply Hn. exists f. reflexivity.
    + rewrite (int_to_float_err n e Hf). reflexivity.
  - intros He [f Hf]. congruence.
Qed.

(** The three injectors begin alike: the deadline is computed, which fails
    for a duration out of range, and the loop is entered. *)
Lemma inject_high_error_rate_run self service d w :
  inject_high_error_rate self service d w =
  match int_to_float (d * 60) with
  | Ok _ =>
      error_rate_loop (inject_fuel d) self service
        (clock w + d * 60 * ticks_per_second) 0 w
  | Err e => (Raised e, w)
  end.
Proof.
  unfold inject_high_error_rate. rewrite bind_time, bind_run.
  destruct (int_to_float (d * 60)); reflexivity.
Qed.

Lemma inject_high_latency_run self service latency_ms d w :
  inject_high_latency self service latency_ms d w =
  match int_to_float (d * 60) with
  | Ok _ =>
      latency_loop (inject_fuel d) self service latency_ms
        (clock w + d * 60 * ticks_per_second) w
  | Err e => (Raised e, w)
  end.
Proof.
  unfold inject_high_latency. rewrite bind_time, bind_run.
  destruct (int_to_float (d * 60)); reflexivity.
Qed.

Lemma inject_resource_exhaustion_run self service resource_type usage_percent
    d w :
  inject_resource_exhaustion self service resource_type usage_percent d w =
  match int_to_float (d * 60) with
  | Ok _ =>
      resource_loop (inject_fuel d) self service resource_type usage_percent
        (clock w + d * 60 * ticks_per_second) w
  | Err e => (Raised e, w)
  end.
Proof.
  unfold inject_resource_exhaustion. rewrite bind_time, bind_run.
  destruct (int_to_float (d * 60)); reflexivity.
Qed.

(** A duration out of range: nothing is sent. *)
Lemma idle_report u (fails : exn -> Prop) w e :
  fails e -> injection_report u fails w (Raised e, w).
Proof.
  intros He. exists []. rewrite app_nil_r. cbn [fst snd].
  split; [reflexivity|]. split; [constructor|]. split; [|right; exact He].
  intros [|p pre] x post Heq; discriminate.
Qed.

Lemma latency_metrics_err service latency_ms e :
  latency_metrics service latency_ms = Err e ->
  e = OverflowError /\ int_true_divide latency_ms 1000 = Err OverflowError.
Proof.
  unfold latency_metrics, rbind.
  destruct (int_true_divide latency_ms 1000) as [q|e'] eqn:Hq; [discriminate|].
  intros [= <-]. revert Hq. unfold int_true_divide.
  change (1000 =? 0) with false. cbv iota.
  destruct (SFdiv prec emax _ _); intros [=]. subst. auto.
Qed.

Lemma resource_metrics_valid service resource_type usage_percent :
  resource_type = "memory" \/ resource_type = "cpu" ->
  resource_metrics service resource_type usage_percent <> None.
Proof.
  unfold resource_metrics. intros [-> | ->].
  - rewrite String.eqb_refl. discriminate.
  - change ("cpu" =? "memory")%string with false. cbv iota.
    rewrite String.eqb_refl. discriminate.
Qed.

Lemma resource_metrics_invalid service resource_type usage_percent :
  resource_type <> "memory" -> resource_type <> "cpu" ->
  resource_metrics service resource_type usage_percent = None.
Proof.
  unfold resource_metrics. intros Hm Hc.
  apply String.eqb_neq in Hm, Hc. rewrite Hm, Hc. reflexivity.
Qed.

(** C1 (as the code has it): for every service and [duration_minutes > 0],
    each of [inject_high_error_rate], [inject_high_latency] and
    [inject_resource_exhaustion] (with a valid resource type) issues only
    POSTs to [{pushgateway_url}/metrics/job/alert_test/instance/{service}]
    and returns [True] if and only if no POST it issued met a transport
    error, whatever status the answers carry; a transport error aborts the
    loop and yields [False].  The call returns unless Ctrl-C arrives or an
    [OverflowError] leaves it: when [duration_minutes * 60] is out of the
    range of a [float] (raised where the deadline is computed, before any
    request), and, for the latency payload, when [latency_ms / 1000]
    overflows.  The integer arguments, and the usage that the resource
    payload states, are ones that Python renders as text. *)
Theorem injection_true_iff_no_transport_error :
  forall self service latency_ms resource_type usage_percent
         duration_minutes w,
    0 < duration_minutes ->
    resource_type = "memory" \/ resource_type = "cpu" ->
    printable duration_minutes ->
    printable latency_ms ->
    printable (usage_percent * 10 ^ 7) ->
    let u := (pushgateway_url self ++ "/metrics/job/alert_test/instance/"
              ++ service)%string in
    let too_long e :=
      e = OverflowError /\ ~ in_float_range (duration_minutes * 60) in
    injection_report u too_long w
      (inject_high_error_rate self service duration_minutes w) /\
    injection_report u
      (fun e => too_long e \/
                (e = OverflowError /\
                 int_true_divide latency_ms 1000 = Err OverflowError)) w
      (inject_high_latency self service latency_ms duration_minutes w) /\
    injection_report u too_long w
      (inject_resource_exhaustion self service resource_type usage_percent
         duration_minutes w) /\
    (~ in_float_range (duration_minutes * 60) ->
     inject_high_error_rate self service duration_minutes w
       = (Raised OverflowError, w) /\
     inject_high_latency self service latency_ms duration_minutes w
       = (Raised OverflowError, w) /\
     inject_resource_exhaustion self service resource_type usage_percent
       duration_minutes w = (Raised OverflowError, w)).
Proof.
  intros self service latency_ms resource_type usage_percent d w _ Hvalid
    _ _ _ u too_long.
  rewrite inject_high_error_rate_run, inject_high_latency_run,
    inject_resource_exhaustion_run.
  destruct (int_to_float (d * 60)) as [f|e] eqn:Hf.
  - unfold inject_fuel. split; [|split; [|split]].
    + destruct (error_rate_loop_run self service
                  (clock w + d * 60 * ticks_per_second)
                  (Z.to_nat (d * 4)) 0 w (inject_fuel_enough d w))
        as (issued & Ht & Hp & Hr).
      eapply push_run_report; eauto; contradiction.
    + destruct (latency_loop_run self service latency_ms
                  (clock w + d * 60 * ticks_per_second)
                  (Z.to_nat (d * 4)) w (inject_fuel_enough d w))
        as (issued & Ht & Hp & _ & Hr).
      eapply push_run_report; eauto.
      intros e He. right. exact (latency_metrics_err service latency_ms e He).
    + destruct (resource_loop_run self service resource_type usage_percent
                  (clock w + d * 60 * ticks_per_second)
                  (Z.to_nat (d * 4))
                  (resource_metrics_valid service resource_type usage_percent
                     Hvalid)
                  w (inject_fuel_enough d w))
        as (issued & Ht & Hp & Hr).
      eapply push_run_report; eauto; contradiction.
    + intros Hout. apply out_of_float_range in Hout. congruence.
  - pose proof (int_to_float_err _ _ Hf) as ->.
    assert (Hlong : too_long OverflowError).
    { split; [reflexivity|]. apply out_of_float_range. exact Hf. }
    split; [|split; [|split]]; auto using idle_report.
Qed.

(** Past the loop condition an unknown resource type is turned down: for
    every [resource_type] other than "memory" and "cpu" and every
    [duration_minutes > 0] in range, [inject_resource_exhaustion] sends no
    request (it leaves the world as it found it) and returns [False]. *)
Lemma unknown_resource_type_rejected :
  forall self service resource_type usage_percent duration_minutes w,
    resource_type <> "memory" -> resource_type <> "cpu" ->
    0 < duration_minutes ->
    in_float_range (duration_minutes * 60) ->
    inject_resource_exhaustion self service resource_type usage_percent
      duration_minutes w = (Returned false, w).
Proof.
  intros self service resource_type usage_percent d w Hm Hc Hd [f Hf].
  rewrite inject_resource_exhaustion_run, Hf. unfold inject_fuel.
  rewrite resource_loop_unfold, bind_time.
  replace (clock w <? clock w + d * 60 * ticks_per_second) with true
    by (symmetry; apply Z.ltb_lt; unfold ticks_per_second; lia).
  rewrite resource_metrics_invalid by assumption. reflexivity.
Qed.

(** C10 (as the code has it): for every [duration_minutes <= 0] whose
    [duration_minutes * 60] is in the range of a [float], each of the three
    injectors sends no request (it leaves the world as it found it) and
    returns [True]; [inject_resource_exhaustion] does so for every
    [resource_type], valid or not, since the check is in the loop body.  For
    a duration out of that range each of them raises [OverflowError] where
    the deadline is computed, also without a request.  The integer
    arguments are ones that Python renders as text. *)
Theorem nonpositive_duration_returns_true :
  forall self service latency_ms resource_type usage_percent
         duration_minutes w,
    duration_minutes <= 0 ->
    printable duration_minutes ->
    printable latency_ms ->
    printable usage_percent ->
    (in_float_range (duration_minutes * 60) ->
     inject_high_error_rate self service duration_minutes w
       = (Returned true, w) /\
     inject_high_latency self service latency_ms duration_minutes w
       = (Returned true, w) /\
     inject_resource_exhaustion self service resource_type usage_percent
       duration_minutes w = (Returned true, w)) /\
    (~ in_float_range (duration_minutes * 60) ->
     inject_high_error_rate self service duration_minutes w
       = (Raised OverflowError, w) /\
     inject_high_latency self service latency_ms duration_minutes w
       = (Raised OverflowError, w) /\
     inject_resource_exhaustion self service resource_type usage_percent
       duration_minutes w = (Raised OverflowError, w)).
Proof.
  intros self service latency_ms resource_type usage_percent d w Hd _ _ _.
  assert (Hend : (clock w <? clock w + d * 60 * ticks_per_second) = false)
    by (apply Z.ltb_ge; unfold ticks_per_second; lia).
  rewrite inject_high_error_rate_run, inject_high_latency_run,
    inject_resource_exhaustion_run.
  split.
  - intros [f ->]. unfold inject_fuel.
    rewrite error_rate_loop_unfold, latency_loop_unfold,
      resource_loop_unfold, !bind_time, Hend.
    auto.
  - intros Hout. apply out_of_float_range in Hout. rewrite Hout. auto.
Qed.

(** C9: [clear_injected_metrics] issues exactly one request, a DELETE to
    [{pushgateway_url}/metrics/job/alert_test/instance/{service}], and
    returns [True] if and only if the response status is 200 or 202; on any
    other status and on a transport error it returns [False].  It returns
    unless Ctrl-C cuts the request short. *)
Theorem clear_injected_metrics_spec :
  forall self service w,
    let run := clear_injected_metrics self service w in
    exists x,
      trace (snd run) = trace w ++ [x] /\
      method (request x) = DELETE /\
      url (request x)
        = (pushgateway_url self ++ "/metrics/job/alert_test/instance/"
           ++ service)%string /\
      match fst run with
      | Returned b =>
          (b = true <->
           exists r, outcome x = Some (Answered r) /\
                     (status_code r = 200 \/ status_code r = 202)) /\
          (b = false <->
           outcome x = Some TransportError \/
           exists r, outcome x = Some (Answered r) /\
                     status_code r <> 200 /\ status_code r <> 202)
      | Raised e => e = KeyboardInterrupt /\ outcome x = None /\ sigint <> None
      | Diverged => False
      end.
Proof.
  intros self service w run. subst run.
  unfold clear_injected_metrics, try_except, requests_delete.
  rewrite bind_run.
  pose proof (http_spec (mkRequest DELETE (push_url self service) None []) w)
    as Hh.
  cbv zeta in Hh. destruct Hh as (x & Htr & Hrq & _ & _ & Hclk & _ & Hout).
  destruct (http _ w) as [r1 w1]. cbn [fst snd] in *.
  destruct r1 as [resp|e|]; [| |contradiction].
  - destruct Hout as [Hout _]. unfold accepted, ret.
    destruct ((status_code resp =? 200) || (status_code resp =? 202))
      eqn:Hacc; cbn [fst snd]; exists x; rewrite Hrq;
      (repeat split; auto; try discriminate).
    + intros _. exists resp. split; auto.
      apply orb_true_iff in Hacc. lia.
    + intros [Hf|(r & Hr & H1 & H2)]; [congruence|].
      assert (r = resp) by congruence. subst r.
      apply orb_true_iff in Hacc. lia.
    + intros (r & Hr & Hs).
      assert (r = resp) by congruence. subst r.
      apply orb_false_iff in Hacc. lia.
    + intros _. right. exists resp. apply orb_false_iff in Hacc.
      repeat split; auto; lia.
  - destruct Hout as [[-> Hout]|(-> & Hout & Hsig)]; cbn [is_Exception fst snd];
      unfold ret; cbn [fst snd]; exists x; rewrite Hrq;
      (repeat split; auto; try discriminate).
    + intros (r & Hr & _). congruence.
Qed.

(** ** Fetching the active alerts *)

Lemma state_is_active_record a :
  is_alert_record a = true -> state_is_active a = Ok (is_active a).
Proof.
  destruct a as [| | | | |?|items]; try discriminate.
  unfold is_alert_record, state_is_active, is_active, py_get, rbind.
  destruct (assoc "status" items) as [[| | | | |?|status]|]; try discriminate;
    intros _; [|reflexivity].
  destruct (assoc "state" status) as [[| | | | |?|?]|]; reflexivity.
Qed.

Lemma state_is_active_other a :
  is_alert_record a = false -> state_is_active a = Err AttributeError.
Proof.
  destruct a as [| | | | |?|items]; try reflexivity.
  unfold is_alert_record, state_is_active, py_get, rbind.
  destruct (assoc "status" items) as [[| | | | |?|status]|];
    try discriminate; reflexivity.
Qed.

Lemma active_only_records entries :
  forallb is_alert_record entries = true ->
  active_only entries = Ok (filter is_active entries).
Proof.
  induction entries as [|a rest IH]; [reflexivity|].
  cbn [forallb active_only filter]. intros [Ha Hrest]%andb_true_iff.
  rewrite (state_is_active_record a Ha), (IH Hrest). reflexivity.
Qed.

Lemma active_only_other entries :
  forallb is_alert_record entries = false ->
  active_only entries = Err AttributeError.
Proof.
  induction entries as [|a rest IH]; [discriminate|].
  cbn [forallb active_only]. intros H.
  destruct (is_alert_record a) eqn:Ha.
  - rewrite (state_is_active_record a Ha), (IH H). reflexivity.
  - rewrite (state_is_active_other a Ha). reflexivity.
Qed.

(** Iterating over anything that is not an array of alert records ends in
    an exception or, for an empty [dict] or [str], in the empty list. *)
Lemma active_only_strings {A} (f : A -> string) (l : list A) :
  active_only (map (fun x => JStr (f x)) l) = Ok [] \/
  active_only (map (fun x => JStr (f x)) l) = Err AttributeError.
Proof. destruct l; [left|right]; reflexivity. Qed.

(** What follows the GET inside the [try] block, for a response [r]. *)
Definition read_alerts (r : Response) : M (list json) :=
  raise_for_status r ;;;
  alerts <- response_json r ;;
  lift (entries <~ py_iter alerts ;; active_only entries)%result.

Lemma read_alerts_spec r w :
  match fetched_alerts (Answered r) with
  | Some entries => read_alerts r w = (Returned (filter is_active entries), w)
  | None =>
      read_alerts r w = (Returned [], w) \/
      exists e, read_alerts r w = (Raised e, w) /\ is_Exception e = true
  end.
Proof.
  unfold fetched_alerts, read_alerts, raise_for_status, response_json.
  unfold bind, ret, raise.
  destruct ((400 <=? status_code r) && (status_code r <? 600));
    [right; exists HTTPError; split; reflexivity|].
  destruct (body_json r) as [v|];
    [|right; exists JSONDecodeError; split; reflexivity].
  destruct v as [| | | |s|entries|items];
    try (right; exists TypeError; split; reflexivity);
    cbn [py_iter rbind].
  - destruct (active_only_strings (fun c => String c EmptyString)
                (list_ascii_of_string s)) as [-> | ->];
      [left; reflexivity|right; exists AttributeError; split; reflexivity].
  - destruct (forallb is_alert_record entries) eqn:Hall.
    + rewrite (active_only_records entries Hall). reflexivity.
    + rewrite (active_only_other entries Hall).
      right; exists AttributeError; split; reflexivity.
  - destruct (active_only_strings fst items) as [-> | ->];
      [left; reflexivity|right; exists AttributeError; split; reflexivity].
Qed.

Definition polled (u : string) (x : Exchange) : Prop :=
  request x = mkRequest GET u None [].

Definition alerts_url (self : AlertVerifier) : string :=
  alertmanager_url self ++ "/api/v2/alerts".

(** One call of [get_active_alerts]: one GET in the log, and either the
    active alerts it shows or Ctrl-C. *)
Lemma get_active_alerts_run self w :
  exists x w1,
    snd (get_active_alerts self w) = w1 /\
    trace w1 = trace w ++ [x] /\
    polled (alerts_url self) x /\
    started x = clock w /\ finished x = clock w1 /\ clock w <= clock w1 /\
    outcome x = match interrupted (clock w + Z.of_N (latency
                      (server (trace w) (clock w)
                         (mkRequest GET (alerts_url self) None [])))) w
                with
                | Some _ => None
                | None => Some (reply_result
                      (server (trace w) (clock w)
                         (mkRequest GET (alerts_url self) None [])))
                end /\
    ((fst (get_active_alerts self w) = Returned (seen x) /\ outcome x <> None)
     \/ (fst (get_active_alerts self w) = Raised KeyboardInterrupt /\
         outcome x = None /\ sigint <> None)).
Proof.
  unfold get_active_alerts, try_except, requests_get. fold (alerts_url self).
  rewrite bind_run.
  pose proof (http_spec (mkRequest GET (alerts_url self) None []) w) as Hh.
  cbv zeta in Hh.
  destruct Hh as (x & Htr & Hrq & Hst & Hfin & Hclk & Hrep & Hout).
  destruct (http _ w) as [r1 w1]. cbn [fst snd] in *.
  destruct r1 as [resp|e|]; [| |contradiction].
  - destruct Hout as [Hout Hres]. cbv beta.
    pose proof (read_alerts_spec resp w1) as Hread. unfold read_alerts in Hread.
    assert (Hs : seen x = match fetched_alerts (Answered resp) with
                          | Some entries => filter is_active entries
                          | None => []
                          end) by (unfold seen; rewrite Hout; reflexivity).
    destruct (fetched_alerts (Answered resp)) as [entries|].
    + rewrite Hread. exists x, w1. cbn [fst snd]. rewrite Hs.
      repeat split; auto. left.
      split; [reflexivity|rewrite Hout; discriminate].
    + destruct Hread as [Hread|(e & Hread & He)]; rewrite Hread;
        try rewrite He; unfold ret; exists x, w1; cbn [fst snd];
        rewrite Hs; repeat split; auto; left;
        (split; [reflexivity|rewrite Hout; discriminate]).
  - destruct Hout as [[-> Hout]|(-> & Hout & Hsig)];
      cbn [is_Exception]; unfold ret; exists x, w1; cbn [fst snd];
      repeat split; auto.
    left. unfold seen. rewrite Hout.
    split; [reflexivity|discriminate].
Qed.

(** C4: [get_active_alerts] issues one GET to
    [{alertmanager_url}/api/v2/alerts] and returns exactly the entries of the
    fetched JSON array whose [status.state] is "active", in their order; on a
    transport error, an error status, a body that is not JSON or not an array
    of alert records it returns the empty list.  It never raises an
    [Exception]: only Ctrl-C leaves it without a list. *)
Theorem get_active_alerts_spec :
  forall self w,
    let rq := mkRequest GET (alertmanager_url self ++ "/api/v2/alerts")%string
                None [] in
    let rp := server (trace w) (clock w) rq in
    let run := get_active_alerts self w in
    exists x,
      trace (snd run) = trace w ++ [x] /\ request x = rq /\
      match fst run with
      | Returned alerts =>
          outcome x = Some (reply_result rp) /\
          match fetched_alerts (reply_result rp) with
          | Some entries => alerts = filter is_active entries
          | None => alerts = []
          end /\
          (forall status entries,
              reply_result rp
                = Answered (mkResponse status (Some (JArr entries))) ->
              status < 400 \/ 600 <= status ->
              forallb is_alert_record entries = true ->
              alerts = filter is_active entries) /\
          (reply_result rp = TransportError -> alerts = []) /\
          (forall r, reply_result rp = Answered r -> body_json r = None ->
                     alerts = [])
      | Raised e => e = KeyboardInterrupt /\ sigint <> None
      | Diverged => False
      end.
Proof.
  intros self w rq rp run. subst run.
  destruct (get_active_alerts_run self w)
    as (x & w1 & Hw & Htr & Hrq & _ & _ & _ & Hrep & Hrun).
  fold (alerts_url self) in rq. fold rq in Hrep. fold rp in Hrep.
  exists x. rewrite Hw. split; [exact Htr|]. split; [exact Hrq|].
  destruct Hrun as [[-> Hsome]|(-> & Hnone & Hsig)]; [|auto].
  destruct (interrupted _ w); [congruence|].
  assert (Hseen : seen x = match fetched_alerts (reply_result rp) with
                           | Some entries => filter is_active entries
                           | None => []
                           end) by (unfold seen; rewrite Hrep; reflexivity).
  rewrite Hseen. split; [exact Hrep|].
  split; [destruct (fetched_alerts (reply_result rp)); reflexivity|].
  repeat split.
  - intros status entries -> Hstatus Hall. unfold fetched_alerts.
    cbn [status_code body_json]. rewrite Hall.
    replace ((400 <=? status) && (status <? 600)) with false; [reflexivity|].
    symmetry. apply andb_false_iff. lia.
  - intros ->. reflexivity.
  - intros r -> Hbody. unfold fetched_alerts. rewrite Hbody.
    destruct ((400 <=? status_code r) && (status_code r <? 600)); reflexivity.
Qed.

(** ** Looking for an alert by name *)

(** The shape the three [for alert in alerts] loops share: go on while
    [alertname] differs, decide with [found] at the first alert that has
    the name, [False] when the list is exhausted. *)
Fixpoint scan (alert_name : string) (found : json -> result bool)
    (alerts : list json) : result bool :=
  match alerts with
  | [] => Ok false
  | alert :: rest =>
      (hit <~ alertname_is alert alert_name ;;
       if hit then found alert else scan alert_name found rest)%result
  end.

Lemma alert_fired_scan alerts alert_name :
  alert_fired alerts alert_name = scan alert_name (fun _ => Ok true) alerts.
Proof.
  induction alerts as [|a rest IH]; [reflexivity|].
  cbn [alert_fired scan]. rewrite IH. reflexivity.
Qed.

Lemma verify_labels_in_scan alerts alert_name expected :
  verify_labels_in alerts alert_name expected =
  scan alert_name
    (fun alert => (labels <~ py_get alert "labels" (JObj []) ;;
                   labels_agree labels expected)%result)
    alerts.
Proof.
  induction alerts as [|a rest IH]; [reflexivity|].
  cbn [verify_labels_in scan]. rewrite IH. reflexivity.
Qed.

Lemma verify_annotations_in_scan alerts alert_name required :
  verify_annotations_in alerts alert_name required =
  scan alert_name
    (fun alert => (annotations <~ py_get alert "annotations" (JObj []) ;;
                   annotations_present annotations required)%result)
    alerts.
Proof.
  induction alerts as [|a rest IH]; [reflexivity|].
  cbn [verify_annotations_in scan]. rewrite IH. reflexivity.
Qed.

Lemma alertname_is_labels a alert_name labels :
  labels_of a = Some labels ->
  alertname_is a alert_name
  = Ok (match assoc "alertname" labels with
        | Some (JStr s) => String.eqb s alert_name
        | _ => false
        end) /\
  py_get a "labels" (JObj []) = Ok (JObj labels).
Proof.
  destruct a as [| | | | |?|items]; try discriminate.
  unfold labels_of, alertname_is, py_get, rbind.
  destruct (assoc "labels" items) as [[| | | | |?|l]|]; try discriminate;
    intros [= <-]; split; try reflexivity.
  destruct (assoc "alertname" l) as [[| | | | |?|?]|]; reflexivity.
Qed.

Lemma alertname_is_no_labels a alert_name :
  labels_of a = None -> alertname_is a alert_name = Err AttributeError.
Proof.
  destruct a as [| | | | |?|items]; try reflexivity.
  unfold labels_of, alertname_is, py_get, rbind.
  destruct (assoc "labels" items) as [[| | | | |?|l]|]; try discriminate;
    reflexivity.
Qed.

Lemma alertname_is_named a alert_name :
  alertname_is a alert_name = Ok true <-> named alert_name a.
Proof.
  unfold named. destruct (labels_of a) as [labels|] eqn:Hl.
  - destruct (alertname_is_labels a alert_name labels Hl) as [-> _].
    split.
    + intros [= H]. exists labels. split; [reflexivity|].
      destruct (assoc "alertname" labels) as [[| | | |s|?|?]|];
        try discriminate.
      apply String.eqb_eq in H. subst. reflexivity.
    + intros (l & [= <-] & ->). rewrite String.eqb_refl. reflexivity.
  - rewrite (alertname_is_no_labels a alert_name Hl).
    split; [discriminate|]. intros (l & Hl' & _). discriminate.
Qed.

Lemma first_named_skip alert_name a b rest :
  ~ named alert_name b ->
  first_named alert_name rest a -> first_named alert_name (b :: rest) a.
Proof.
  intros Hb (pre & post & -> & Ha & Hpre).
  exists (b :: pre), post. auto.
Qed.

Lemma first_named_unique alert_name alerts a a' :
  first_named alert_name alerts a -> first_named alert_name alerts a' ->
  a = a'.
Proof.
  intros (pre & post & -> & Ha & Hpre) (pre' & post' & Heq & Ha' & Hpre').
  revert pre' Heq Hpre'.
  induction pre as [|p pre IH]; intros [|p' pre'] Heq Hpre';
    cbn [app] in Heq; injection Heq as Hhd Htl.
  - assumption.
  - subst p'. inversion Hpre'. contradiction.
  - subst p. inversion Hpre. contradiction.
  - inversion Hpre; inversion Hpre'; subst. eauto.
Qed.

(** A scan ends at the first alert with the name, or finds none, or trips
    over an alert whose [labels] is no mapping. *)
Lemma scan_spec alert_name found alerts :
  (exists a, first_named alert_name alerts a /\
             scan alert_name found alerts = found a)
  \/ (Forall (fun b => ~ named alert_name b) alerts /\
      scan alert_name found alerts = Ok false)
  \/ (Exists (fun b => labels_of b = None) alerts /\
      scan alert_name found alerts = Err AttributeError).
Proof.
  induction alerts as [|b rest IH]; [right; left; split; auto|].
  cbn [scan].
  destruct (labels_of b) as [labels|] eqn:Hl.
  - destruct (alertname_is b alert_name) as [[|]|e] eqn:Hb.
    + left. exists b. split; [|reflexivity].
      exists [], rest. repeat split; auto.
      apply alertname_is_named. exact Hb.
    + assert (Hnb : ~ named alert_name b).
      { intros Hn%alertname_is_named. congruence. }
      cbn [rbind].
      destruct IH as [(a & Hfirst & ->)|[[Hall ->]|[Hex ->]]].
      * left. exists a. split; [|reflexivity].
        apply first_named_skip; assumption.
      * right; left. split; auto.
      * right; right. split; auto.
    + destruct (alertname_is_labels b alert_name labels Hl) as [H _].
      congruence.
  - rewrite (alertname_is_no_labels b alert_name Hl).
    right; right. split; [|reflexivity]. left. exact Hl.
Qed.

(** ** Checking labels and annotations *)

Lemma label_agrees l key value :
  py_eq_str (match assoc key l with Some v => v | None => JNull end) value
  = true <-> assoc key l = Some (JStr value).
Proof.
  destruct (assoc key l) as [[| | | |s|?|?]|]; cbn [py_eq_str];
    try (split; discriminate).
  rewrite String.eqb_eq. split; [intros ->; reflexivity|].
  intros [= ->]. reflexivity.
Qed.

Lemma labels_agree_spec l expected :
  exists b,
    labels_agree (JObj l) expected = Ok b /\
    (b = true <->
     forall k v, In (k, v) expected -> assoc k l = Some (JStr v)).
Proof.
  induction expected as [|[key value] rest (b & Hb & IH)].
  - exists true. split; [reflexivity|]. split; [|reflexivity].
    intros _ k v [].
  - cbn [labels_agree py_get rbind].
    destruct (py_eq_str _ value) eqn:Heq; cbn [negb].
    + exists b. split; [exact Hb|]. rewrite IH.
      apply label_agrees in Heq.
      split; intros H k v.
      * intros [[= <- <-]|Hin]; auto.
      * intros Hin. apply H. right. exact Hin.
    + exists false. split; [reflexivity|]. split; [discriminate|].
      intros H. specialize (H key value (or_introl eq_refl)).
      apply label_agrees in H. congruence.
Qed.

Lemma annotations_present_spec l required :
  exists b,
    annotations_present (JObj l) required = Ok b /\
    (b = true <-> forall k, In k required -> assoc k l <> None).
Proof.
  induction required as [|key rest (b & Hb & IH)].
  - exists true. split; [reflexivity|]. split; [|reflexivity].
    intros _ k [].
  - cbn [annotations_present py_in rbind].
    destruct (assoc key l) as [v|] eqn:Hkey; cbn [negb].
    + exists b. split; [exact Hb|]. rewrite IH.
      split; intros H k.
      * intros [<-|Hin]; [congruence|auto].
      * intros Hin. apply H. right. exact Hin.
    + exists false. split; [reflexivity|]. split; [discriminate|].
      intros H. exfalso. apply (H key); [left; reflexivity|exact Hkey].
Qed.

Lemma py_get_annotations a items :
  annotations_of a = Some items ->
  py_get a "annotations" (JObj []) = Ok (JObj items).
Proof.
  destruct a as [| | | | |?|fields]; try discriminate.
  unfold annotations_of, py_get.
  destruct (assoc "annotations" fields) as [[| | | | |?|l]|];
    try discriminate; intros [= <-]; reflexivity.
Qed.

(** What is left of [annotations_present] when [annotations] is no mapping:
    it raises nothing but [TypeError]. *)
Lemma annotations_present_err annotations required e :
  annotations_present annotations required = Err e -> e = TypeError.
Proof.
  induction required as [|key rest IH]; [discriminate|].
  cbn [annotations_present]. unfold rbind.
  destruct (py_in key annotations) as [[|]|e'] eqn:Hin; cbn [negb];
    try discriminate; auto.
  intros [= <-]. destruct annotations; cbn [py_in] in Hin; congruence.
Qed.

(** A verification is one fetch followed by a check of what it shows. *)
Lemma verify_run self (check : list json -> result bool) w :
  exists x,
    trace (snd (bind (get_active_alerts self)
                  (fun alerts => lift (check alerts)) w))
      = trace w ++ [x] /\
    polled (alerts_url self) x /\
    ((fst (bind (get_active_alerts self)
             (fun alerts => lift (check alerts)) w)
        = match check (seen x) with
          | Ok b => Returned b
          | Err e => Raised e
          end)
     \/ (fst (bind (get_active_alerts self)
                (fun alerts => lift (check alerts)) w)
           = Raised KeyboardInterrupt /\ sigint <> None)).
Proof.
  rewrite bind_run.
  destruct (get_active_alerts_run self w)
    as (x & w1 & Hw & Htr & Hrq & _ & _ & _ & _ & Hrun).
  destruct (get_active_alerts self w) as [r w']. cbn [fst snd] in *. subst w'.
  exists x.
  destruct Hrun as [[-> _]|(-> & _ & Hsig)]; cbn [fst snd].
  - destruct (check (seen x)); cbn [lift]; unfold ret, raise; cbn [fst snd];
      auto.
  - auto.
Qed.

(** C7: [verify_alert_labels] fetches the active alerts once and returns
    [True] exactly when the first active alert whose [labels.alertname] is
    [alert_name] carries every expected key with exactly the expected string;
    so it returns [False] when no active alert has the name, and [False] at
    the first expected label that differs.  It returns unless Ctrl-C arrives
    or an alert's [labels] is no mapping. *)
Theorem verify_alert_labels_spec :
  forall self alert_name expected_labels w,
    let run := verify_alert_labels self alert_name expected_labels w in
    exists x,
      trace (snd run) = trace w ++ [x] /\
      polled (alertmanager_url self ++ "/api/v2/alerts")%string x /\
      match fst run with
      | Returned b =>
          (b = true <->
           exists a labels,
             first_named alert_name (seen x) a /\
             labels_of a = Some labels /\
             forall k v, In (k, v) expected_labels ->
                         assoc k labels = Some (JStr v)) /\
          (Forall (fun a => ~ named alert_name a) (seen x) -> b = false) /\
          (forall a labels pre k v post,
              first_named alert_name (seen x) a ->
              labels_of a = Some labels ->
              expected_labels = pre ++ (k, v) :: post ->
              assoc k labels <> Some (JStr v) ->
              b = false)
      | Raised e =>
          (e = KeyboardInterrupt /\ sigint <> None) \/
          (e = AttributeError /\
           Exists (fun a => labels_of a = None) (seen x))
      | Diverged => False
      end.
Proof.
  intros self alert_name expected w run. subst run.
  unfold verify_alert_labels.
  destruct (verify_run self
              (fun alerts => verify_labels_in alerts alert_name expected) w)
    as (x & Htr & Hrq & Hrun).
  exists x. split; [exact Htr|]. split; [exact Hrq|].
  destruct Hrun as [-> | [-> Hsig]]; [|auto].
  rewrite verify_labels_in_scan.
  destruct (scan_spec alert_name
              (fun alert => (labels <~ py_get alert "labels" (JObj []) ;;
                             labels_agree labels expected)%result)
              (seen x)) as [(a & Hfirst & ->)|[[Hall ->]|[Hex ->]]];
    [| |right; auto].
  - assert (Hnamed : named alert_name a)
      by (destruct Hfirst as (? & ? & _ & H & _); exact H).
    destruct Hnamed as (labels & Hl & Hname).
    destruct (alertname_is_labels a alert_name labels Hl) as [_ ->].
    cbn [rbind].
    destruct (labels_agree_spec labels expected) as (b & -> & Hb).
    assert (Hiff : b = true <->
              exists a0 labels0,
                first_named alert_name (seen x) a0 /\
                labels_of a0 = Some labels0 /\
                forall k v, In (k, v) expected ->
                            assoc k labels0 = Some (JStr v)).
    { rewrite Hb. split.
      - intros H. exists a, labels. auto.
      - intros (a0 & labels0 & Hfirst0 & Hl0 & H).
        assert (a0 = a) by eauto using first_named_unique. subst a0.
        assert (labels0 = labels) by congruence. subst labels0. exact H. }
    split; [exact Hiff|]. split.
    + intros Hnone. exfalso.
      destruct Hfirst as (pre & post & Heq & Ha & _).
      rewrite Forall_forall in Hnone. apply (Hnone a); auto.
      rewrite Heq. apply in_or_app. right. left. reflexivity.
    + intros a0 labels0 pre k v post Hfirst0 Hl0 -> Hne.
      assert (a0 = a) by eauto using first_named_unique. subst a0.
      assert (labels0 = labels) by congruence. subst labels0.
      destruct b; [|reflexivity]. exfalso. apply Hne.
      apply Hb; [reflexivity|]. apply in_or_app. right. left. reflexivity.
  - split; [|split; [reflexivity|reflexivity]].
    split; [discriminate|].
    intros (a & labels & (pre & post & Heq & Ha & _) & _). exfalso.
    rewrite Forall_forall in Hall. apply (Hall a); auto.
    rewrite Heq. apply in_or_app. right. left. reflexivity.
Qed.

(** C8: [verify_alert_annotations] fetches the active alerts once and
    returns [False] when no active alert has the name or when a required key
    is absent from the annotation map of the first active alert with the
    name; when all required keys are present it returns [True], whatever
    their values.  It returns unless Ctrl-C arrives, an alert's [labels] is
    no mapping, or [annotations] is not iterable. *)
Theorem verify_alert_annotations_spec :
  forall self alert_name required_annotations w,
    let run := verify_alert_annotations self alert_name required_annotations w
    in
    exists x,
      trace (snd run) = trace w ++ [x] /\
      polled (alertmanager_url self ++ "/api/v2/alerts")%string x /\
      match fst run with
      | Returned b =>
          (Forall (fun a => ~ named alert_name a) (seen x) -> b = false) /\
          (forall a annotations,
              first_named alert_name (seen x) a ->
              annotations_of a = Some annotations ->
              (b = true <->
               forall key, In key required_annotations ->
                           assoc key annotations <> None))
      | Raised e =>
          (e = KeyboardInterrupt /\ sigint <> None) \/
          (e = AttributeError /\
           Exists (fun a => labels_of a = None) (seen x)) \/
          (e = TypeError /\
           exists a, first_named alert_name (seen x) a /\
                     annotations_of a = None)
      | Diverged => False
      end.
Proof.
  intros self alert_name required w run. subst run.
  unfold verify_alert_annotations.
  destruct (verify_run self
              (fun alerts => verify_annotations_in alerts alert_name required)
              w)
    as (x & Htr & Hrq & Hrun).
  exists x. split; [exact Htr|]. split; [exact Hrq|].
  destruct Hrun as [-> | [-> Hsig]]; [|auto].
  rewrite verify_annotations_in_scan.
  destruct (scan_spec alert_name
              (fun alert =>
                 (annotations <~ py_get alert "annotations" (JObj []) ;;
                  annotations_present annotations required)%result)
              (seen x)) as [(a & Hfirst & ->)|[[Hall ->]|[Hex ->]]];
    [| |right; left; auto].
  - assert (Hin : In a (seen x)).
    { destruct Hfirst as (pre & post & -> & _).
      apply in_or_app. right. left. reflexivity. }
    assert (Hnamed : named alert_name a)
      by (destruct Hfirst as (? & ? & _ & H & _); exact H).
    destruct (annotations_of a) as [items|] eqn:Hann.
    + rewrite (py_get_annotations a items Hann). cbn [rbind].
      destruct (annotations_present_spec items required) as (b & -> & Hb).
      split.
      * intros Hnone. exfalso. rewrite Forall_forall in Hnone.
        apply (Hnone a); auto.
      * intros a0 items0 Hfirst0 Hann0.
        assert (a0 = a) by eauto using first_named_unique. subst a0.
        assert (items0 = items) by congruence. subst items0. exact Hb.
    + assert (Hobj : exists fields, a = JObj fields).
      { destruct Hnamed as (labels & Hl & _).
        destruct a; try discriminate. eauto. }
      destruct Hobj as [fields ->].
      cbn [py_get rbind].
      destruct (annotations_present
                  match assoc "annotations" fields with
                  | Some v => v
                  | None => JObj []
                  end required) as [b|e] eqn:Hpres.
      * split.
        -- intros Hnone. exfalso. rewrite Forall_forall in Hnone.
           apply (Hnone (JObj fields)); auto.
        -- intros a0 items0 Hfirst0 Hann0.
           assert (a0 = JObj fields) by eauto using first_named_unique.
           subst a0. congruence.
      * apply annotations_present_err in Hpres. subst e.
        right; right. split; [reflexivity|]. exists (JObj fields). auto.
  - split; [reflexivity|].
    intros a items (pre & post & Heq & Ha & _) _. exfalso.
    rewrite Forall_forall in Hall. apply (Hall a); auto.
    rewrite Heq. apply in_or_app. right. left. reflexivity.
Qed.

(** ** Waiting for an alert *)

Lemma wait_loop_unfold fuel self alert_name timeout start_time :
  wait_loop (S fuel) self alert_name timeout start_time =
  (now <- time_time ;;
   if now - start_time <? timeout * ticks_per_second then
     alerts <- get_active_alerts self ;;
     fired <- lift (alert_fired alerts alert_name) ;;
     if fired then
       _elapsed <- time_time ;;
       ret true
     else
       time_sleep 5 ;;;
       wait_loop fuel self alert_name timeout start_time
   else ret false).
Proof. reflexivity. Qed.

(** How a wait can end: [True] at the first poll that fires; [False] after
    the timeout with no poll having fired; Ctrl-C; or [AttributeError] from
    an alert of the last poll whose [labels] is no mapping. *)
Definition wait_run (alert_name : string) (timeout start_time : Z)
    (r : Outcome bool) (w' : World) (polls : list Exchange) : Prop :=
  match r with
  | Returned true =>
      exists pre x,
        polls = pre ++ [x] /\
        Forall (fun y => ~ fires alert_name y) pre /\
        fires alert_name x /\ clock w' = finished x
  | Returned false =>
      Forall (fun y => ~ fires alert_name y) polls /\
      timeout * 1000 <= clock w' - start_time
  | Raised e =>
      (e = KeyboardInterrupt /\ sigint <> None) \/
      (e = AttributeError /\
       exists pre x,
         polls = pre ++ [x] /\
         Forall (fun y => ~ fires alert_name y) pre /\
         Exists (fun a => labels_of a = None) (seen x))
  | Diverged => False
  end.

Lemma wait_run_cons alert_name timeout start_time r w' x polls :
  ~ fires alert_name x ->
  wait_run alert_name timeout start_time r w' polls ->
  wait_run alert_name timeout start_time r w' (x :: polls).
Proof.
  intros Hx. destruct r as [[|]|e|]; cbn [wait_run]; auto.
  - intros (pre & y & -> & Hpre & Hy). exists (x :: pre), y. auto.
  - intros [Hall Ht]. auto.
  - intros [H|(-> & pre & y & -> & Hpre & Hy)]; [auto|right].
    split; [reflexivity|]. exists (x :: pre), y. auto.
Qed.

Lemma first_named_fires alert_name x a :
  first_named alert_name (seen x) a -> fires alert_name x.
Proof.
  intros (pre & post & Heq & Ha & _). unfold fires. rewrite Heq.
  apply Exists_app. right. left. exact Ha.
Qed.

Lemma none_named_quiet alert_name x :
  Forall (fun b => ~ named alert_name b) (seen x) -> ~ fires alert_name x.
Proof.
  unfold fires. rewrite Forall_forall, Exists_exists.
  intros Hall (a & Hin & Ha). exact (Hall a Hin Ha).
Qed.

Lemma wait_loop_run self alert_name timeout start_time n :
  forall w,
    timeout * 1000 - (clock w - start_time) <= 5000 * Z.of_nat n ->
    exists polls,
      trace (snd (wait_loop (S n) self alert_name timeout start_time w))
        = trace w ++ polls /\
      Forall (polled (alerts_url self)) polls /\
      paced 5000 (clock w) polls /\
      Forall (fun x => started x - start_time < timeout * 1000) polls /\
      wait_run alert_name timeout start_time
        (fst (wait_loop (S n) self alert_name timeout start_time w))
        (snd (wait_loop (S n) self alert_name timeout start_time w))
        polls.
Proof.
  induction n as [|n IH]; intros w Hfuel;
    rewrite wait_loop_unfold, bind_time; unfold ticks_per_second;
    destruct (clock w - start_time <? timeout * 1000) eqn:Hlt;
    try (apply Z.ltb_ge in Hlt; exists []; rewrite app_nil_r;
         cbn [fst snd wait_run paced]; unfold ret; cbn [fst snd];
         repeat split; auto; fail);
    apply Z.ltb_lt in Hlt; try lia.
  rewrite bind_run.
  destruct (get_active_alerts_run self w)
    as (x & w1 & Hw & Htr & Hrq & Hst & Hfin & Hclk & _ & Hrun).
  destruct (get_active_alerts self w) as [r w']. cbn [fst snd] in *. subst w'.
  assert (Hone : forall r0 w0,
    trace w0 = trace w1 -> 
    wait_run alert_name timeout start_time r0 w0 [x] ->
    exists polls,
      trace (snd (r0, w0)) = trace w ++ polls /\
      Forall (polled (alerts_url self)) polls /\
      paced 5000 (clock w) polls /\
      Forall (fun x => started x - start_time < timeout * 1000) polls /\
      wait_run alert_name timeout start_time (fst (r0, w0)) (snd (r0, w0))
        polls).
  { intros r0 w0 Ht0 Hr0. exists [x]. cbn [fst snd paced].
    rewrite Ht0, Htr. repeat split; auto.
    constructor; [lia|constructor]. }
  destruct Hrun as [[-> _]|(-> & _ & Hsig)];
    [|apply Hone; [reflexivity|left; auto]].
  rewrite bind_run, alert_fired_scan.
  destruct (scan_spec alert_name (fun _ => Ok true) (seen x))
    as [(a & Hfirst & ->)|[[Hall ->]|[Hex ->]]];
    rewrite ?lift_ok, ?lift_err; cbv iota.
  - rewrite bind_time. apply Hone; [reflexivity|].
    exists [], x. repeat split; eauto using first_named_fires.
  - rewrite bind_run.
    assert (Hquiet : ~ fires alert_name x) by auto using none_named_quiet.
    destruct (sleep_spec 5 w1) as [Hs|(t & Hs & Hsig)]; [lia| |]; rewrite Hs;
      [|apply Hone; [reflexivity|left; auto]].
    specialize (IH (mkWorld (clock w1 + 5 * 1000) (trace w1))).
    destruct IH as (polls & Ht & Hp & Hpace & Hbefore & Hr);
      [cbn [clock]; lia|].
    destruct (wait_loop (S n) _ _ _ _ _) as [r2 w2].
    cbn [fst snd trace clock] in *.
    exists (x :: polls). rewrite Ht, Htr, <- app_assoc.
    repeat split; auto.
    + cbn [paced]. rewrite Hfin. exact Hpace.
    + constructor; [lia|assumption].
    + apply wait_run_cons; assumption.
  - apply Hone; [reflexivity|]. right. split; [reflexivity|].
    exists [], x. repeat split; auto.
Qed.

Lemma wait_fuel_enough timeout w :
  timeout * 1000 - (clock w - clock w)
  <= 5000 * Z.of_nat (Z.to_nat ((timeout + 4) / 5)).
Proof.
  pose proof (Z.div_mod (timeout + 4) 5 ltac:(lia)) as Hdiv.
  pose proof (Z.mod_pos_bound (timeout + 4) 5 ltac:(lia)) as Hmod.
  lia.
Qed.

(** *** The polls, one by one *)



















(** ** The latency payload *)

Lemma two_seconds :
  int_true_divide 2000 1000 = Ok (S754_finite false 4503599627370496 (-51)).
Proof. vm_compute. reflexivity. Qed.

(** C6: for every [latency_ms] the payload built by [inject_high_latency],
    the one every push of a run carries, has one
    [http_request_duration_seconds_sum] sample, equal to
    [latency_ms / 1000 * 100] in binary64 arithmetic, and one
    [http_request_duration_seconds_count] sample, 100 (no payload is built
    when the division overflows); for [latency_ms = 2000] the sum is exactly
    200.0, that is 7036874417766400 * 2^-45. *)
Theorem latency_payload_sum_and_count :
  forall self service latency_ms duration_minutes w,
    let run := inject_high_latency self service latency_ms duration_minutes w
    in
    match int_true_divide latency_ms 1000 with
    | Ok q =>
        exists p,
          latency_metrics service latency_ms = Ok p /\
          sample_values "http_request_duration_seconds_sum" p
            = [VFloat (float_mul_int q 100)] /\
          sample_values "http_request_duration_seconds_count" p
            = [VInt 100]
    | Err e => latency_metrics service latency_ms = Err e
    end /\
    (exists issued,
        trace (snd run) = trace w ++ issued /\
        Forall (fun x => exists p,
                    latency_metrics service latency_ms = Ok p /\
                    data (request x) = Some p) issued) /\
    (exists p,
        latency_metrics service 2000 = Ok p /\
        sample_values "http_request_duration_seconds_sum" p
          = [VFloat (float_of_int 200)] /\
        sample_values "http_request_duration_seconds_count" p
          = [VInt 100] /\
        float_of_int 200 = S754_finite false 7036874417766400 (-45)).
Proof.
  intros self service latency_ms d w run. subst run. split; [|split].
  - unfold latency_metrics, rbind.
    destruct (int_true_divide latency_ms 1000) as [q|e]; [|reflexivity].
    eexists. split; [reflexivity|]. split; reflexivity.
  - rewrite inject_high_latency_run.
    destruct (int_to_float (d * 60));
      [|exists []; cbn [snd]; rewrite app_nil_r; auto].
    unfold inject_fuel.
    destruct (latency_loop_run self service latency_ms
                (clock w + d * 60 * ticks_per_second)
                (Z.to_nat (d * 4)) w (inject_fuel_enough d w))
      as (issued & Ht & _ & Hd & _).
    exists issued. auto.
  - unfold latency_metrics. rewrite two_seconds. cbn [rbind].
    eexists. split; [reflexivity|].
    split; [vm_compute; reflexivity|].
    split; vm_compute; reflexivity.
Qed.

(** ** The exit status *)

(** The exit status for what the selected operation did: 0 for [True], 1 for
    [False] and for an exception caught as [Exception], 130 for Ctrl-C. *)
Definition exit_of (run : Outcome bool * World) : Outcome Z * World :=
  (match fst run with
   | Returned true => Returned 0
   | Returned false => Returned 1
   | Raised KeyboardInterrupt => Returned 130
   | Raised _ => Returned 1
   | Diverged => Diverged
   end,
   snd run).

Lemma try_main_exit (operation : M bool) w :
  try_main (success <- operation ;; exit_status success) w
  = exit_of (operation w).
Proof.
  unfold try_main, exit_of, exit_status. rewrite bind_run.
  destruct (operation w) as [[[|]|[]|] w']; reflexivity.
Qed.

Lemma exit_of_code run :
  fst run <> Diverged ->
  exists code,
    fst (exit_of run) = Returned code /\
    (code = 0 \/ code = 1 \/ code = 130).
Proof.
  unfold exit_of. destruct (fst run) as [[|]|[]|]; cbn [fst]; eauto 6.
  congruence.
Qed.

Lemma push_run_returns fails r issued : push_run fails r issued -> r <> Diverged.
Proof. destruct r; [discriminate..|contradiction]. Qed.

Lemma inject_high_error_rate_returns self service d w :
  fst (inject_high_error_rate self service d w) <> Diverged.
Proof.
  rewrite inject_high_error_rate_run.
  destruct (int_to_float (d * 60)); [|discriminate]. unfold inject_fuel.
  destruct (error_rate_loop_run self service
              (clock w + d * 60 * ticks_per_second)
              (Z.to_nat (d * 4)) 0 w (inject_fuel_enough d w))
    as (issued & _ & _ & Hr).
  eauto using push_run_returns.
Qed.

Lemma inject_high_latency_returns self service latency_ms d w :
  fst (inject_high_latency self service latency_ms d w) <> Diverged.
Proof.
  rewrite inject_high_latency_run.
  destruct (int_to_float (d * 60)); [|discriminate]. unfold inject_fuel.
  destruct (latency_loop_run self service latency_ms
              (clock w + d * 60 * ticks_per_second)
              (Z.to_nat (d * 4)) w (inject_fuel_enough d w))
    as (issued & _ & _ & _ & Hr).
  eauto using push_run_returns.
Qed.

Lemma inject_resource_exhaustion_returns self service resource_type
    usage_percent d w :
  fst (inject_resource_exhaustion self service resource_type usage_percent
         d w) <> Diverged.
Proof.
  rewrite inject_resource_exhaustion_run.
  destruct (int_to_float (d * 60)); [|discriminate]. unfold inject_fuel.
  destruct (resource_metrics service resource_type usage_percent)
    as [metrics|] eqn:Hm.
  - destruct (resource_loop_run self service resource_type usage_percent
                (clock w + d * 60 * ticks_per_second)
                (Z.to_nat (d * 4)) ltac:(congruence)
                w (inject_fuel_enough d w))
      as (issued & _ & _ & Hr).
    eauto using push_run_returns.
  - rewrite resource_loop_unfold, bind_time, Hm.
    destruct (clock w <? _); discriminate.
Qed.

Lemma clear_injected_metrics_returns self service w :
  fst (clear_injected_metrics self service w) <> Diverged.
Proof.
  unfold clear_injected_metrics, try_except, requests_delete.
  rewrite bind_run.
  pose proof (http_spec (mkRequest DELETE (push_url self service) None []) w)
    as Hh.
  cbv zeta in Hh. destruct Hh as (x & _ & _ & _ & _ & _ & _ & Hout).
  destruct (http _ w) as [[resp|e|] w1]; cbn [fst snd] in *;
    [| |contradiction].
  - destruct (accepted resp); discriminate.
  - destruct (is_Exception e); discriminate.
Qed.

Lemma wait_for_alert_returns self alert_name timeout w :
  fst (wait_for_alert self alert_name timeout w) <> Diverged.
Proof.
  unfold wait_for_alert, wait_fuel. rewrite bind_time.
  destruct (wait_loop_run self alert_name timeout (clock w)
              (Z.to_nat ((timeout + 4) / 5)) w (wait_fuel_enough timeout w))
    as (polls & _ & _ & _ & _ & Hr).
  intros Hd. rewrite Hd in Hr. exact Hr.
Qed.

Lemma dispatch_command args w c :
  command args = Some c -> c <> "" ->
  dispatch args w =
  try_main
    (if String.eqb c "inject-error-rate" then
       success <- inject_high_error_rate
                    (mkAlertInjector (arg_prometheus_url args)
                       (arg_pushgateway_url args))
                    (arg_service args) (arg_duration args) ;;
       exit_status success
     else if String.eqb c "inject-latency" then
       success <- inject_high_latency
                    (mkAlertInjector (arg_prometheus_url args)
                       (arg_pushgateway_url args))
                    (arg_service args) (arg_latency args)
                    (arg_duration args) ;;
       exit_status success
     else if String.eqb c "inject-resource-exhaustion" then
       success <- inject_resource_exhaustion
                    (mkAlertInjector (arg_prometheus_url args)
                       (arg_pushgateway_url args))
                    (arg_service args) (arg_resource args) (arg_usage args)
                    (arg_duration args) ;;
       exit_status success
     else if String.eqb c "clear" then
       success <- clear_injected_metrics
                    (mkAlertInjector (arg_prometheus_url args)
                       (arg_pushgateway_url args))
                    (arg_service args) ;;
       exit_status success
     else if String.eqb c "wait-for-alert" then
       success <- wait_for_alert
                    (mkAlertVerifier (arg_alertmanager_url args))
                    (arg_alert_name args) (arg_timeout args) ;;
       exit_status success
     else ret 1) w.
Proof.
  intros Hc Hne. unfold dispatch, no_command, command_is. rewrite Hc.
  apply String.eqb_neq in Hne. rewrite Hne. reflexivity.
Qed.

Lemma dispatch_code args w :
  exists code,
    fst (dispatch args w) = Returned code /\
    (code = 0 \/ code = 1 \/ code = 130).
Proof.
  destruct (command args) as [c|] eqn:Hc;
    [|exists 1; unfold dispatch, no_command; rewrite Hc; auto].
  destruct (String.eqb_spec c "") as [->|Hne];
    [exists 1; unfold dispatch, no_command; rewrite Hc; auto|].
  rewrite (dispatch_command args w c Hc Hne).
  repeat match goal with
         | |- context [if String.eqb c ?k then _ else _] =>
             destruct (String.eqb c k);
             [rewrite try_main_exit; apply exit_of_code;
              auto using inject_high_error_rate_returns,
                inject_high_latency_returns,
                inject_resource_exhaustion_returns,
                clear_injected_metrics_returns, wait_for_alert_returns|]
         end.
  exists 1. auto.
Qed.

Lemma main_parsed argv args w :
  parse_args argv = Parsed args -> main argv w = dispatch args w.
Proof. intros Hp. unfold main. rewrite Hp. reflexivity. Qed.

Lemma main_exits argv status w :
  parse_args argv = SystemExit status -> main argv w = (Returned status, w).
Proof. intros Hp. unfold main. rewrite Hp. reflexivity. Qed.

(** C5 (what the code does): the exit status is 0 when the selected
    operation returns [True] and 1 when it returns [False] or ends in an
    exception caught as [Exception]; it is 1 for a missing sub-command; it
    is 130 when the operation is cut short by Ctrl-C.  A command line that
    argparse refuses never reaches the dispatch: the process exits with the
    status of [parse_args], 2 for an error (0 for the help).  So an unknown
    sub-command exits with 2, not with 1: the branch of the dispatch that
    answers an unknown command with 1 is there, and no namespace that
    [parse_args] returns takes it.  There is no exit status other than 0,
    1, 2 and 130. *)
Theorem main_exit_status :
  forall argv w,
    argparse_contract parse_args ->
    (forall status,
        parse_args argv = SystemExit status ->
        main argv w = (Returned status, w) /\ (status = 0 \/ status = 2)) /\
    (forall word rest,
        argv = word :: rest -> is_option word = false ->
        ~ known_command word ->
        main argv w = (Returned 2, w)) /\
    (forall args,
        parse_args argv = Parsed args ->
        let injector :=
          mkAlertInjector (arg_prometheus_url args) (arg_pushgateway_url args)
        in
        let verifier := mkAlertVerifier (arg_alertmanager_url args) in
        (command args = None -> main argv w = (Returned 1, w)) /\
        (command args = Some "inject-error-rate" ->
         main argv w
         = exit_of (inject_high_error_rate injector (arg_service args)
                      (arg_duration args) w)) /\
        (command args = Some "inject-latency" ->
         main argv w
         = exit_of (inject_high_latency injector (arg_service args)
                      (arg_latency args) (arg_duration args) w)) /\
        (command args = Some "inject-resource-exhaustion" ->
         main argv w
         = exit_of (inject_resource_exhaustion injector (arg_service args)
                      (arg_resource args) (arg_usage args)
                      (arg_duration args) w)) /\
        (command args = Some "clear" ->
         main argv w
         = exit_of (clear_injected_metrics injector (arg_service args) w)) /\
        (command args = Some "wait-for-alert" ->
         main argv w
         = exit_of (wait_for_alert verifier (arg_alert_name args)
                      (arg_timeout args) w)) /\
        (command args = None \/
         exists c, command args = Some c /\ known_command c)) /\
    (forall args c,
        command args = Some c -> c <> "" -> ~ known_command c ->
        dispatch args w = (Returned 1, w)) /\
    (exists code,
        fst (main argv w) = Returned code /\
        (code = 0 \/ code = 1 \/ code = 2 \/ code = 130)).
Proof.
  intros argv w (Hexit & Hcommand & Hunknown).
  split; [|split; [|split; [|split]]].
  - intros status Hp. split; [apply main_exits, Hp|apply (Hexit argv), Hp].
  - intros word rest -> Hword Hnone.
    apply main_exits, Hunknown; assumption.
  - intros args Hp injector verifier. rewrite (main_parsed argv args w Hp).
    split; [|repeat split].
    + unfold dispatch, no_command. intros ->. reflexivity.
    + intros Hc. rewrite (dispatch_command args w _ Hc) by discriminate.
      apply try_main_exit.
    + intros Hc. rewrite (dispatch_command args w _ Hc) by discriminate.
      apply try_main_exit.
    + intros Hc. rewrite (dispatch_command args w _ Hc) by discriminate.
      apply try_main_exit.
    + intros Hc. rewrite (dispatch_command args w _ Hc) by discriminate.
      apply try_main_exit.
    + intros Hc. rewrite (dispatch_command args w _ Hc) by discriminate.
      apply try_main_exit.
    + exact (Hcommand argv args Hp).
  - intros args c Hc Hne Hnone.
    rewrite (dispatch_command args w c Hc Hne).
    unfold known_command in Hnone.
    repeat match goal with
           | |- context [String.eqb c ?k] =>
               destruct (String.eqb_spec c k); [tauto|]
           end.
    reflexivity.
  - destruct (parse_args argv) as [args|status] eqn:Hp.
    + rewrite (main_parsed argv args w Hp).
      destruct (dispatch_code args w) as (code & Hcode & Hrange).
      exists code. split; [exact Hcode|tauto].
    + rewrite (main_exits argv status w Hp).
      exists status. split; [reflexivity|].
      destruct (Hexit argv status Hp); auto.
Qed.

(** * Further properties *)

(** ** The timeline of an injection *)

(** The rounds the three injection loops share once the payload is built:
    while the deadline is ahead, one POST, then 15 seconds of sleep; a
    transport error ends them with [False]. *)
Fixpoint push_rounds (fuel : nat) (u : string) (metrics : Payload)
    (h : list (string * string)) (end_time : Z) : M bool :=
  match fuel with
  | O => diverge
  | S fuel' =>
      now <- time_time ;;
      if now <? end_time then
        step <- try_except
                  (response <- requests_post u metrics h ;;
                   ret (@inl unit bool tt))
                  (fun _ => ret (inr false)) ;;
        match step with
        | inr b => ret b
        | inl _ => time_sleep 15 ;;; push_rounds fuel' u metrics h end_time
        end
      else ret true
  end.

Lemma after_rounds_last gap t pre x :
  after_rounds gap t (pre ++ [x]) = finished x + gap.
Proof.
  revert t. induction pre as [|p pre IH]; intros t; [reflexivity|].
  cbn [app after_rounds]. apply IH.
Qed.

Lemma error_rate_loop_rounds self service end_time fuel :
  forall injected w,
    error_rate_loop fuel self service end_time injected w
    = push_rounds fuel (push_url self service) (error_rate_metrics service)
        [("Content-Type", "text/plain")] end_time w.
Proof.
  induction fuel as [|fuel IH]; intros injected w; [reflexivity|].
  rewrite error_rate_loop_unfold. cbn [push_rounds]. rewrite !bind_time.
  destruct (clock w <? end_time); [|reflexivity].
  rewrite !bind_run. unfold try_except. rewrite !bind_run.
  unfold requests_post.
  destruct (http _ w) as [[resp|e|] w1]; [| |reflexivity].
  - unfold ret. destruct (accepted resp); cbv beta iota;
      rewrite !bind_run;
      destruct (time_sleep 15 w1) as [[[]|e|] w2]; auto.
  - destruct (is_Exception e); reflexivity.
Qed.

Lemma latency_loop_rounds self service latency_ms end_time metrics fuel :
  latency_metrics service latency_ms = Ok metrics ->
  forall w,
    latency_loop fuel self service latency_ms end_time w
    = push_rounds fuel (push_url self service) metrics [] end_time w.
Proof.
  intros Hm.
  induction fuel as [|fuel IH]; intros w; [reflexivity|].
  rewrite latency_loop_unfold. cbn [push_rounds]. rewrite !bind_time.
  destruct (clock w <? end_time); [|reflexivity].
  rewrite Hm, bind_run, lift_ok.
  rewrite !bind_run. unfold try_except. rewrite !bind_run.
  unfold requests_post.
  destruct (http _ w) as [[resp|e|] w1]; [| |reflexivity].
  - unfold ret. destruct (accepted resp); cbv beta iota;
      rewrite !bind_run;
      destruct (time_sleep 15 w1) as [[[]|e|] w2]; auto.
  - destruct (is_Exception e); reflexivity.
Qed.

Lemma resource_loop_rounds self service resource_type usage_percent end_time
    metrics fuel :
  resource_metrics service resource_type usage_percent = Some metrics ->
  forall w,
    resource_loop fuel self service resource_type usage_percent end_time w
    = push_rounds fuel (push_url self service) metrics [] end_time w.
Proof.
  intros Hm.
  induction fuel as [|fuel IH]; intros w; [reflexivity|].
  rewrite resource_loop_unfold. cbn [push_rounds]. rewrite !bind_time.
  destruct (clock w <? end_time); [|reflexivity].
  rewrite Hm.
  rewrite !bind_run. unfold try_except. rewrite !bind_run.
  unfold requests_post.
  destruct (http _ w) as [[resp|e|] w1]; [| |reflexivity].
  - unfold ret. destruct (accepted resp); cbv beta iota;
      rewrite !bind_run;
      destruct (time_sleep 15 w1) as [[[]|e|] w2]; auto.
  - destruct (is_Exception e); reflexivity.
Qed.

(** When no payload can be built the loop leaves the world as it is. *)
Lemma latency_loop_unbuilt self service latency_ms end_time e fuel w :
  latency_metrics service latency_ms = Err e ->
  latency_loop (S fuel) self service latency_ms end_time w
  = (if clock w <? end_time then Raised e else Returned true, w).
Proof.
  intros Hm. rewrite latency_loop_unfold, bind_time.
  destruct (clock w <? end_time); [|reflexivity].
  rewrite Hm, bind_run, lift_err. reflexivity.
Qed.

Lemma resource_loop_unbuilt self service resource_type usage_percent end_time
    fuel w :
  resource_metrics service resource_type usage_percent = None ->
  resource_loop (S fuel) self service resource_type usage_percent end_time w
  = (Returned (negb (clock w <? end_time)), w).
Proof.
  intros Hm. rewrite resource_loop_unfold, bind_time, Hm.
  destruct (clock w <? end_time); reflexivity.
Qed.

(** The timeline of a run of rounds started in [w]: the same request every
    time, a first push at once and 15 seconds of sleep after each, none
    started at or after the deadline.  [True] comes with the deadline passed,
    [False] with the clock where the failed request left it. *)
Definition rounds_timeline (rq : Request) (end_time : Z) (w : World)
    (run : Outcome bool * World) : Prop :=
  exists issued,
    trace (snd run) = trace w ++ issued /\
    Forall (fun x => request x = rq) issued /\
    paced 15000 (clock w) issued /\
    Forall (fun x => started x < end_time) issued /\
    Forall (fun x => started x <= finished x) issued /\
    match fst run with
    | Returned true =>
        end_time <= clock (snd run) /\
        clock (snd run) = after_rounds 15000 (clock w) issued
    | Returned false =>
        exists pre x,
          issued = pre ++ [x] /\ transport_failed x /\
          clock (snd run) = finished x
    | _ => True
    end.

Lemma rounds_timeline_cons rq end_time w x w2 run :
  request x = rq -> started x = clock w -> started x <= finished x ->
  clock w < end_time ->
  trace w2 = trace w ++ [x] -> clock w2 = finished x + 15000 ->
  rounds_timeline rq end_time w2 run ->
  rounds_timeline rq end_time w run.
Proof.
  intros Hrq Hst Hfin Hlt Htr Hclk (issued & Ht & Hreq & Hpace & Hbefore & Hdur & Hr).
  exists (x :: issued). rewrite Ht, Htr, <- app_assoc.
  split; [reflexivity|]. split; [auto|].
  split; [cbn [paced]; rewrite <- Hclk; auto|].
  split; [constructor; [lia|assumption]|].
  split; [auto|].
  destruct (fst run) as [[|]|e|]; auto.
  - cbn [after_rounds]. rewrite <- Hclk. exact Hr.
  - destruct Hr as (pre & y & -> & Hy & Hc). exists (x :: pre), y. auto.
Qed.

Lemma rounds_timeline_one rq end_time w x r w1 :
  request x = rq -> started x = clock w -> started x <= finished x ->
  clock w < end_time ->
  trace w1 = trace w ++ [x] ->
  match r with
  | Returned true => False
  | Returned false => transport_failed x /\ clock w1 = finished x
  | _ => True
  end ->
  rounds_timeline rq end_time w (r, w1).
Proof.
  intros Hrq Hst Hfin Hlt Htr Hr. exists [x]. cbn [fst snd paced].
  split; [exact Htr|]. split; [auto|]. split; [auto|].
  split; [constructor; [lia|constructor]|]. split; [auto|].
  destruct r as [[|]|e|]; auto; [contradiction|].
  exists [], x. tauto.
Qed.

Lemma push_rounds_timeline u metrics h end_time n :
  forall w,
    end_time - clock w <= 15000 * Z.of_nat n ->
    rounds_timeline (mkRequest POST u (Some metrics) h) end_time w
      (push_rounds (S n) u metrics h end_time w).
Proof.
  induction n as [|n IH]; intros w Hfuel;
    cbn [push_rounds]; rewrite bind_time;
    destruct (clock w <? end_time) eqn:Hlt;
    try (apply Z.ltb_ge in Hlt; exists []; rewrite app_nil_r;
         unfold ret; cbn [fst snd paced after_rounds];
         repeat split; auto; fail);
    apply Z.ltb_lt in Hlt; try lia.
  rewrite bind_run. unfold try_except, requests_post. rewrite bind_run.
  pose proof (http_spec (mkRequest POST u (Some metrics) h) w) as Hh.
  cbv zeta in Hh.
  destruct Hh as (x & Htr & Hrq & Hst & Hfin & Hclk & _ & Hout).
  destruct (http _ w) as [r1 w1]. cbn [fst snd] in *.
  assert (Hdur : started x <= finished x) by lia.
  destruct r1 as [resp|e|]; [| |contradiction].
  - unfold ret at 1. cbv beta iota. rewrite bind_run.
    destruct (sleep_spec 15 w1) as [Hs|(t & Hs & Hsig)]; [lia| |]; rewrite Hs.
    + apply (rounds_timeline_cons _ end_time w x
               (mkWorld (clock w1 + 15 * 1000) (trace w1))); auto.
      * cbn [clock]. lia.
      * apply IH. cbn [clock]. lia.
    + apply (rounds_timeline_one _ end_time w x); auto.
  - destruct Hout as [[-> Hout]|(-> & Hout & Hsig)]; cbn [is_Exception];
      unfold ret; cbv beta iota;
      apply (rounds_timeline_one _ end_time w x); auto.
Qed.

(** The part of a timeline that needs no payload: it also holds for a run
    that issues nothing. *)
Definition run_timeline (end_time : Z) (w : World)
    (run : Outcome bool * World) : Prop :=
  exists issued,
    trace (snd run) = trace w ++ issued /\
    paced 15000 (clock w) issued /\
    Forall (fun x => started x < end_time) issued /\
    Forall (fun x => started x <= finished x) issued /\
    (fst run = Returned true ->
     end_time <= clock (snd run) /\
     clock (snd run) = after_rounds 15000 (clock w) issued).

Lemma rounds_timeline_run rq end_time w run :
  rounds_timeline rq end_time w run -> run_timeline end_time w run.
Proof.
  intros (issued & Ht & _ & Hpace & Hbefore & Hdur & Hr).
  exists issued. repeat split; auto; destruct (fst run) as [[|]|e|];
    try discriminate; tauto.
Qed.

Lemma idle_run_timeline end_time w r :
  (r = Returned true -> end_time <= clock w) ->
  run_timeline end_time w (r, w).
Proof.
  intros Hr. exists []. rewrite app_nil_r. cbn [fst snd paced after_rounds].
  repeat split; auto.
Qed.

Definition deadline (w : World) (duration_minutes : Z) : Z :=
  clock w + duration_minutes * 60 * ticks_per_second.

Lemma raised_rounds_timeline rq end_time w e :
  rounds_timeline rq end_time w (Raised e, w).
Proof.
  exists []. cbn [fst snd paced]. rewrite app_nil_r. repeat split; auto.
Qed.

Lemma error_rate_timeline self service d w :
  rounds_timeline
    (mkRequest POST (push_url self service) (Some (error_rate_metrics service))
       [("Content-Type", "text/plain")])
    (deadline w d) w (inject_high_error_rate self service d w).
Proof.
  rewrite inject_high_error_rate_run. unfold inject_fuel, deadline.
  destruct (int_to_float (d * 60)); [|apply raised_rounds_timeline].
  rewrite error_rate_loop_rounds.
  apply push_rounds_timeline, inject_fuel_enough.
Qed.

Lemma latency_timeline self service latency_ms d w metrics :
  latency_metrics service latency_ms = Ok metrics ->
  rounds_timeline (mkRequest POST (push_url self service) (Some metrics) [])
    (deadline w d) w (inject_high_latency self service latency_ms d w).
Proof.
  intros Hm. rewrite inject_high_latency_run. unfold inject_fuel, deadline.
  destruct (int_to_float (d * 60)); [|apply raised_rounds_timeline].
  rewrite (latency_loop_rounds _ _ _ _ metrics _ Hm).
  apply push_rounds_timeline, inject_fuel_enough.
Qed.

Lemma resource_timeline self service resource_type usage_percent d w metrics :
  resource_metrics service resource_type usage_percent = Some metrics ->
  rounds_timeline (mkRequest POST (push_url self service) (Some metrics) [])
    (deadline w d) w
    (inject_resource_exhaustion self service resource_type usage_percent d w).
Proof.
  intros Hm. rewrite inject_resource_exhaustion_run.
  unfold inject_fuel, deadline.
  destruct (int_to_float (d * 60)); [|apply raised_rounds_timeline].
  rewrite (resource_loop_rounds _ _ _ _ _ metrics _ Hm).
  apply push_rounds_timeline, inject_fuel_enough.
Qed.

(** The three injections of one service, started in the same world. *)
Definition injections (self : AlertInjector) (service : string)
    (latency_ms : Z) (resource_type : string)
    (usage_percent duration_minutes : Z) (w : World)
    : list (Outcome bool * World) :=
  [ inject_high_error_rate self service duration_minutes w;
    inject_high_latency self service latency_ms duration_minutes w;
    inject_resource_exhaustion self service resource_type usage_percent
      duration_minutes w ].

Lemma injections_timeline self service latency_ms resource_type
    usage_percent d w :
  Forall (run_timeline (deadline w d) w)
    (injections self service latency_ms resource_type usage_percent d w).
Proof.
  unfold injections. repeat constructor.
  - eapply rounds_timeline_run, error_rate_timeline.
  - destruct (latency_metrics service latency_ms) as [metrics|e] eqn:Hm.
    + eapply rounds_timeline_run, latency_timeline, Hm.
    + rewrite inject_high_latency_run.
      destruct (int_to_float (d * 60));
        [|apply idle_run_timeline; discriminate].
      unfold inject_fuel.
      rewrite (latency_loop_unbuilt _ _ _ _ e _ _ Hm).
      apply idle_run_timeline. fold (deadline w d).
      destruct (clock w <? deadline w d) eqn:Hlt; [discriminate|].
      intros _. apply Z.ltb_ge. exact Hlt.
  - destruct (resource_metrics service resource_type usage_percent)
      as [metrics|] eqn:Hm.
    + eapply rounds_timeline_run, resource_timeline, Hm.
    + rewrite inject_resource_exhaustion_run.
      destruct (int_to_float (d * 60));
        [|apply idle_run_timeline; discriminate].
      unfold inject_fuel.
      rewrite (resource_loop_unbuilt _ _ _ _ _ _ _ Hm).
      apply idle_run_timeline. fold (deadline w d).
      destruct (clock w <? deadline w d) eqn:Hlt; [discriminate|].
      intros _. apply Z.ltb_ge. exact Hlt.
Qed.

(** Requests paced by [gap], each started before [e]: the last of them
    started no earlier than [gap] times their number less one. *)
Lemma paced_count gap e l :
  0 < gap ->
  forall t,
    paced gap t l ->
    Forall (fun x => started x < e) l ->
    Forall (fun x => started x <= finished x) l ->
    l <> [] ->
    t + gap * (Z.of_nat (List.length l) - 1) < e.
Proof.
  intros Hgap. induction l as [|x rest IH]; intros t Hp Hb Hd Hne;
    [contradiction|].
  destruct Hp as [Hst Hp]. inversion Hb; inversion Hd; subst.
  destruct rest as [|y rest]; [cbn [List.length]; lia|].
  specialize (IH _ Hp ltac:(assumption) ltac:(assumption) ltac:(discriminate)).
  cbn [List.length] in *. lia.
Qed.

(** X1: the pushes of an injection all carry the same request (a POST to
    the per-service path with the payload of the condition; only the
    error-rate pushes carry a Content-Type header), the first is sent at
    once, each next one 15 seconds after the previous one ended, and none
    starts at or after [start + duration_minutes * 60] seconds. *)
Theorem injection_cadence :
  forall self service latency_ms resource_type usage_percent
         duration_minutes w,
    let u := (pushgateway_url self ++ "/metrics/job/alert_test/instance/"
              ++ service)%string in
    let on_schedule rq run :=
      exists issued,
        trace (snd run) = trace w ++ issued /\
        Forall (fun x => request x = rq) issued /\
        paced (15 * 1000) (clock w) issued /\
        Forall (fun x => started x
                         < clock w + duration_minutes * 60 * 1000) issued in
    on_schedule
      (mkRequest POST u (Some (error_rate_metrics service))
         [("Content-Type", "text/plain")])
      (inject_high_error_rate self service duration_minutes w) /\
    (forall metrics,
        latency_metrics service latency_ms = Ok metrics ->
        on_schedule (mkRequest POST u (Some metrics) [])
          (inject_high_latency self service latency_ms duration_minutes w)) /\
    (forall metrics,
        resource_metrics service resource_type usage_percent = Some metrics ->
        on_schedule (mkRequest POST u (Some metrics) [])
          (inject_resource_exhaustion self service resource_type
             usage_percent duration_minutes w)).
Proof.
  intros self service latency_ms resource_type usage_percent d w u on_schedule.
  assert (Hgen : forall rq run,
             rounds_timeline rq (deadline w d) w run -> on_schedule rq run).
  { intros rq run (issued & Ht & Hrq & Hp & Hb & _). exists issued. auto. }
  split; [|split].
  - apply Hgen, error_rate_timeline.
  - intros metrics Hm. apply Hgen, latency_timeline, Hm.
  - intros metrics Hm. apply Hgen, resource_timeline, Hm.
Qed.

(** X2: an injection of [duration_minutes] issues at most
    [4 * duration_minutes] requests (one per 15 seconds), whatever the
    gateway answers and however long it takes; none when
    [duration_minutes <= 0]. *)
Theorem injection_push_count :
  forall self service latency_ms resource_type usage_percent
         duration_minutes w,
    Forall (fun run =>
              exists issued,
                trace (snd run) = trace w ++ issued /\
                Z.of_nat (List.length issued) <= Z.max 0 (4 * duration_minutes))
      (injections self service latency_ms resource_type usage_percent
         duration_minutes w).
Proof.
  intros self service latency_ms resource_type usage_percent d w.
  eapply Forall_impl; [|apply injections_timeline].
  intros run (issued & Ht & Hp & Hb & Hd & _). exists issued.
  split; [exact Ht|].
  destruct issued as [|x rest]; [cbn [List.length]; lia|].
  pose proof (paced_count 15000 (deadline w d) (x :: rest) ltac:(lia)
                (clock w) Hp Hb Hd ltac:(discriminate)) as Hc.
  unfold deadline, ticks_per_second in Hc. lia.
Qed.

(** X4: an injection that returns [True] has lasted the full duration.  For
    [duration_minutes > 0] it returns 15 seconds after its last push ended,
    a push that started before the deadline: it overruns by less than 15
    seconds plus the time that push took. *)
Theorem injection_true_after_full_duration :
  forall self service latency_ms resource_type usage_percent
         duration_minutes w,
    Forall (fun run =>
              fst run = Returned true ->
              duration_minutes * 60 * 1000 <= clock (snd run) - clock w /\
              (0 < duration_minutes ->
               exists pre x,
                 trace (snd run) = trace w ++ pre ++ [x] /\
                 started x < clock w + duration_minutes * 60 * 1000 /\
                 clock (snd run) = finished x + 15 * 1000))
      (injections self service latency_ms resource_type usage_percent
         duration_minutes w).
Proof.
  intros self service latency_ms resource_type usage_percent d w.
  eapply Forall_impl; [|apply injections_timeline].
  intros run (issued & Ht & Hp & Hb & Hd & Hr) Htrue.
  destruct (Hr Htrue) as [Hend Hclk].
  unfold deadline, ticks_per_second in *.
  split; [lia|]. intros Hpos.
  destruct issued as [|x0 rest]; [cbn [after_rounds] in Hclk; lia|].
  destruct (exists_last (l := x0 :: rest)) as (pre & x & Heq);
    [discriminate|].
  rewrite Heq in *. exists pre, x.
  rewrite after_rounds_last in Hclk.
  split; [exact Ht|]. split; [|exact Hclk].
  rewrite Forall_forall in Hb. apply Hb.
  apply in_or_app. right. left. reflexivity.
Qed.

(** X5: an injection whose payload is built returns [False] only for a
    transport error, and at once: the failed push is its last request and
    the clock is where that request ended, with no sleep after it. *)
Theorem injection_false_is_immediate :
  forall self service latency_ms resource_type usage_percent
         duration_minutes w,
    let fails_fast run :=
      fst run = Returned false ->
      exists pre x,
        trace (snd run) = trace w ++ pre ++ [x] /\
        transport_failed x /\ clock (snd run) = finished x in
    fails_fast (inject_high_error_rate self service duration_minutes w) /\
    (latency_metrics service latency_ms <> Err OverflowError ->
     fails_fast
       (inject_high_latency self service latency_ms duration_minutes w)) /\
    (resource_type = "memory" \/ resource_type = "cpu" ->
     fails_fast
       (inject_resource_exhaustion self service resource_type usage_percent
          duration_minutes w)).
Proof.
  intros self service latency_ms resource_type usage_percent d w fails_fast.
  assert (Hgen : forall rq run,
             rounds_timeline rq (deadline w d) w run -> fails_fast run).
  { intros rq run (issued & Ht & _ & _ & _ & _ & Hr) Hfalse.
    rewrite Hfalse in Hr. destruct Hr as (pre & x & -> & Hx & Hc).
    exists pre, x. auto. }
  split; [|split].
  - eapply Hgen, error_rate_timeline.
  - intros Hbuilt.
    destruct (latency_metrics service latency_ms) as [metrics|e] eqn:Hm.
    + eapply Hgen, latency_timeline, Hm.
    + destruct (latency_metrics_err _ _ _ Hm) as [-> _]. congruence.
  - intros Hvalid.
    pose proof (resource_metrics_valid service resource_type usage_percent
                  Hvalid) as Hsome.
    destruct (resource_metrics service resource_type usage_percent)
      as [metrics|] eqn:Hm; [|congruence].
    eapply Hgen, resource_timeline, Hm.
Qed.

(** ** When requests take no time *)

Lemma rounds_left a :
  0 < a -> (a + 14999) / 15000 = (a - 15000 + 14999) / 15000 + 1 /\
           0 <= (a - 15000 + 14999) / 15000.
Proof.
  intros Ha.
  replace (a + 14999) with ((a - 15000 + 14999) + 1 * 15000) by lia.
  rewrite Z.div_add by lia. split; [reflexivity|].
  apply Z.div_pos; lia.
Qed.

Lemma no_rounds_left a : a <= 0 -> (a + 14999) / 15000 <= 0.
Proof.
  intros Ha.
  assert ((a + 14999) / 15000 < 1); [|lia].
  apply Z.div_lt_upper_bound; lia.
Qed.

Lemma http_instant rq w :
  (forall tr t rq, latency (server tr t rq) = 0%N) ->
  (forall tr t rq, reply_result (server tr t rq) <> TransportError) ->
  sigint = None ->
  exists resp,
    http rq w
    = (Returned resp,
       mkWorld (clock w)
         (trace w ++ [mkExchange (clock w) rq (clock w)
                        (Some (Answered resp))])).
Proof.
  intros Hinstant Hreach Hsig. unfold http, interrupted.
  rewrite Hsig, Hinstant.
  destruct (reply_result (server (trace w) (clock w) rq)) as [|resp] eqn:Hres;
    [exfalso; exact (Hreach _ _ _ Hres)|].
  exists resp. replace (clock w + Z.of_N 0) with (clock w) by lia.
  reflexivity.
Qed.

Lemma sleep_uninterrupted secs w :
  sigint = None ->
  time_sleep secs w
  = (Returned tt, mkWorld (clock w + secs * 1000) (trace w)).
Proof.
  intros Hsig. unfold time_sleep, interrupted. rewrite Hsig. reflexivity.
Qed.

Lemma push_rounds_unfold fuel u metrics h end_time :
  push_rounds (S fuel) u metrics h end_time =
  (now <- time_time ;;
   if now <? end_time then
     step <- try_except
               (response <- requests_post u metrics h ;;
                ret (@inl unit bool tt))
               (fun _ => ret (inr false)) ;;
     match step with
     | inr b => ret b
     | inl _ => time_sleep 15 ;;; push_rounds fuel u metrics h end_time
     end
   else ret true).
Proof. reflexivity. Qed.

Lemma push_rounds_instant u metrics h end_time :
  (forall tr t rq, latency (server tr t rq) = 0%N) ->
  (forall tr t rq, reply_result (server tr t rq) <> TransportError) ->
  sigint = None ->
  forall n w,
    end_time - clock w <= 15000 * Z.of_nat n ->
    exists issued,
      push_rounds (S n) u metrics h end_time w
      = (Returned true,
         mkWorld (clock w + 15000 * Z.of_nat (List.length issued))
           (trace w ++ issued)) /\
      Z.of_nat (List.length issued)
        = Z.max 0 ((end_time - clock w + 14999) / 15000).
Proof.
  intros Hinstant Hreach Hsig.
  induction n as [|n IH]; intros w Hfuel;
    rewrite push_rounds_unfold, bind_time;
    destruct (clock w <? end_time) eqn:Hlt;
    try (apply Z.ltb_ge in Hlt; exists []; rewrite app_nil_r;
         unfold ret; cbn [List.length];
         pose proof (no_rounds_left (end_time - clock w) ltac:(lia));
         split; [destruct w; cbn [clock trace]; f_equal; f_equal; lia|lia]);
    apply Z.ltb_lt in Hlt; try lia.
  rewrite bind_run. unfold try_except, requests_post. rewrite bind_run.
  destruct (http_instant (mkRequest POST u (Some metrics) h) w
              Hinstant Hreach Hsig) as [resp ->].
  unfold ret at 1. cbv beta iota. rewrite bind_run.
  rewrite (sleep_uninterrupted 15 _ Hsig). cbn [clock trace].
  match goal with
  | |- context [push_rounds (S n) u metrics h end_time ?w2] =>
      destruct (IH w2) as (issued & -> & Hlen); [cbn [clock]; lia|]
  end.
  cbn [clock trace] in *.
  eexists (_ :: issued). rewrite <- app_assoc.
  destruct (rounds_left (end_time - clock w) ltac:(lia)) as [Hq Hq0].
  replace (end_time - (clock w + 15 * 1000) + 14999)
    with (end_time - clock w - 15000 + 14999) in Hlen by lia.
  cbn [List.length]. split; [|lia].
  f_equal. f_equal; [lia|reflexivity].
Qed.

(** X3: against a gateway that answers at once and is never out of reach,
    and with no Ctrl-C, each injection returns [True] after exactly
    [4 * duration_minutes] pushes ([duration_minutes * 60 / 15]) and exactly
    [duration_minutes] minutes, for every duration whose
    [duration_minutes * 60] is in the range of a [float] (and a usage that
    Python renders as text). *)
Theorem injection_instant_gateway :
  forall self service latency_ms resource_type usage_percent
         duration_minutes w,
    (forall tr t rq, latency (server tr t rq) = 0%N) ->
    (forall tr t rq, reply_result (server tr t rq) <> TransportError) ->
    sigint = None ->
    0 <= duration_minutes ->
    in_float_range (duration_minutes * 60) ->
    latency_metrics service latency_ms <> Err OverflowError ->
    resource_type = "memory" \/ resource_type = "cpu" ->
    printable (usage_percent * 10 ^ 7) ->
    Forall (fun run =>
              fst run = Returned true /\
              (exists issued,
                  trace (snd run) = trace w ++ issued /\
                  Z.of_nat (List.length issued) = 4 * duration_minutes) /\
              clock (snd run) = clock w + duration_minutes * 60 * 1000)
      (injections self service latency_ms resource_type usage_percent
         duration_minutes w).
Proof.
  intros self service latency_ms resource_type usage_percent d w
    Hinstant Hreach Hsig Hd [f Hf] Hbuilt Hvalid _.
  assert (Hgen : forall u metrics h,
    let run := push_rounds (inject_fuel d) u metrics h (deadline w d) w in
    fst run = Returned true /\
    (exists issued,
        trace (snd run) = trace w ++ issued /\
        Z.of_nat (List.length issued) = 4 * d) /\
    clock (snd run) = clock w + d * 60 * 1000).
  { intros u metrics h. cbv zeta. unfold inject_fuel.
    destruct (push_rounds_instant u metrics h (deadline w d)
                Hinstant Hreach Hsig (Z.to_nat (d * 4)) w
                (inject_fuel_enough d w)) as (issued & -> & Hlen).
    assert (Hcount : (deadline w d - clock w + 14999) / 15000 = 4 * d).
    { unfold deadline, ticks_per_second.
      replace (clock w + d * 60 * 1000 - clock w + 14999)
        with (14999 + (4 * d) * 15000) by lia.
      rewrite Z.div_add by lia.
      rewrite Z.div_small by lia. lia. }
    rewrite Hcount in Hlen. cbn [fst snd clock trace].
    split; [reflexivity|].
    split; [exists issued; split; [reflexivity|lia]|lia]. }
  unfold injections.
  constructor; [|constructor; [|constructor; [|constructor]]].
  - rewrite inject_high_error_rate_run, Hf, error_rate_loop_rounds.
    apply Hgen.
  - destruct (latency_metrics service latency_ms) as [metrics|e] eqn:Hm.
    + rewrite inject_high_latency_run, Hf,
        (latency_loop_rounds _ _ _ _ metrics _ Hm).
      apply Hgen.
    + destruct (latency_metrics_err _ _ _ Hm) as [-> _]. congruence.
  - pose proof (resource_metrics_valid service resource_type usage_percent
                  Hvalid) as Hsome.
    destruct (resource_metrics service resource_type usage_percent)
      as [metrics|] eqn:Hm; [|congruence].
    rewrite inject_resource_exhaustion_run, Hf,
      (resource_loop_rounds _ _ _ _ _ metrics _ Hm).
    apply Hgen.
Qed.

(** ** The timeline of a wait *)

Definition wait_timeline (timeout start_time : Z) (w : World)
    (run : Outcome bool * World) : Prop :=
  exists polls,
    trace (snd run) = trace w ++ polls /\
    paced 5000 (clock w) polls /\
    Forall (fun x => started x < start_time + timeout * 1000) polls /\
    Forall (fun x => started x <= finished x) polls /\
    (fst run = Returned false ->
     start_time + timeout * 1000 <= clock (snd run) /\
     clock (snd run) = after_rounds 5000 (clock w) polls).

Lemma wait_timeline_one timeout start_time w x r w1 :
  started x = clock w -> started x <= finished x ->
  clock w < start_time + timeout * 1000 ->
  trace w1 = trace w ++ [x] -> r <> Returned false ->
  wait_timeline timeout start_time w (r, w1).
Proof.
  intros Hst Hfin Hlt Htr Hr. exists [x]. cbn [fst snd paced].
  split; [exact Htr|]. split; [auto|].
  split; [constructor; [lia|constructor]|]. split; [auto|].
  intros ->. congruence.
Qed.

Lemma wait_loop_timeline self alert_name timeout start_time n :
  forall w,
    timeout * 1000 - (clock w - start_time) <= 5000 * Z.of_nat n ->
    wait_timeline timeout start_time w
      (wait_loop (S n) self alert_name timeout start_time w).
Proof.
  induction n as [|n IH]; intros w Hfuel;
    rewrite wait_loop_unfold, bind_time; unfold ticks_per_second;
    destruct (clock w - start_time <? timeout * 1000) eqn:Hlt;
    try (apply Z.ltb_ge in Hlt; exists []; rewrite app_nil_r;
         unfold ret; cbn [fst snd paced after_rounds];
         repeat split; auto; lia);
    apply Z.ltb_lt in Hlt; try lia.
  rewrite bind_run.
  destruct (get_active_alerts_run self w)
    as (x & w1 & Hw & Htr & _ & Hst & Hfin & Hclk & _ & Hrun).
  destruct (get_active_alerts self w) as [r w']. cbn [fst snd] in *. subst w'.
  assert (Hdur : started x <= finished x) by lia.
  destruct Hrun as [[-> _]|(-> & _ & Hsig)];
    [|apply (wait_timeline_one _ _ w x); auto; [lia|discriminate]].
  rewrite bind_run.
  destruct (alert_fired (seen x) alert_name) as [[|]|e];
    rewrite ?lift_ok, ?lift_err; cbv iota.
  - rewrite bind_time.
    apply (wait_timeline_one _ _ w x); auto; [lia|discriminate].
  - rewrite bind_run.
    destruct (sleep_spec 5 w1) as [Hs|(t & Hs & Hsig)]; [lia| |]; rewrite Hs;
      [|apply (wait_timeline_one _ _ w x); auto; [lia|discriminate]].
    destruct (IH (mkWorld (clock w1 + 5 * 1000) (trace w1)))
      as (polls & Ht & Hp & Hb & Hd & Hr); [cbn [clock]; lia|].
    destruct (wait_loop (S n) _ _ _ _ _) as [r2 w2].
    cbn [fst snd trace clock] in *.
    exists (x :: polls). cbn [fst snd]. rewrite Ht, Htr, <- app_assoc.
    split; [reflexivity|].
    split; [cbn [paced]; rewrite Hfin; auto|].
    split; [constructor; [lia|assumption]|].
    split; [auto|].
    cbn [after_rounds]. rewrite Hfin. exact Hr.
  - apply (wait_timeline_one _ _ w x); auto; [lia|discriminate].
Qed.

Lemma wait_for_alert_timeline self alert_name timeout w :
  wait_timeline timeout (clock w) w (wait_for_alert self alert_name timeout w).
Proof.
  unfold wait_for_alert, wait_fuel. rewrite bind_time.
  apply wait_loop_timeline, wait_fuel_enough.
Qed.


(** X7: when [wait_for_alert] returns [False] for a [timeout > 0], it does
    so 5 seconds after its last poll ended, a poll that started before the
    timeout: it overruns the timeout by less than 5 seconds plus the time
    that poll took. *)
Theorem wait_false_overrun :
  forall self alert_name timeout w,
    let run := wait_for_alert self alert_name timeout w in
    fst run = Returned false ->
    0 < timeout ->
    exists pre x,
      trace (snd run) = trace w ++ pre ++ [x] /\
      started x - clock w < timeout * 1000 /\
      clock (snd run) = finished x + 5 * 1000 /\
      timeout * 1000 <= clock (snd run) - clock w.
Proof.
  intros self alert_name timeout w run Hfalse Hpos. subst run.
  destruct (wait_for_alert_timeline self alert_name timeout w)
    as (polls & Ht & Hp & Hb & Hd & Hr).
  destruct (Hr Hfalse) as [Hend Hclk].
  destruct polls as [|x0 rest]; [cbn [after_rounds] in Hclk; lia|].
  destruct (exists_last (l := x0 :: rest)) as (pre & x & Heq);
    [discriminate|].
  rewrite Heq in *. exists pre, x.
  rewrite after_rounds_last in Hclk.
  split; [exact Ht|].
  rewrite Forall_forall in Hb.
  specialize (Hb x ltac:(apply in_or_app; right; left; reflexivity)).
  repeat split; lia.
Qed.

(** ** An alert manager that shows nothing *)




(** ** Where the requests go *)

Lemma clear_injected_metrics_world self service w :
  snd (clear_injected_metrics self service w)
  = snd (http (mkRequest DELETE (push_url self service) None []) w).
Proof.
  unfold clear_injected_metrics, try_except, requests_delete.
  rewrite bind_run.
  destruct (http _ w) as [[resp|e|] w1]; cbn [snd]; [| |reflexivity].
  - unfold ret. destruct (accepted resp); reflexivity.
  - unfold ret. destruct (is_Exception e); reflexivity.
Qed.

Lemma exit_of_world run : snd (exit_of run) = snd run.
Proof. reflexivity. Qed.

(** X9: whatever the command line, every request [main] issues is a POST
    or a DELETE on
    [{pushgateway-url}/metrics/job/alert_test/instance/{service}] or a GET
    of [{alertmanager-url}/api/v2/alerts], with the URLs and the service of
    the namespace: nothing is ever sent to the Prometheus URL or anywhere
    else.  This holds of the dispatch for every namespace, and so of [main]
    for every command line, which sends nothing at all when [parse_args]
    refuses it. *)
Theorem main_requests :
  forall w,
    let push args := (arg_pushgateway_url args
                      ++ "/metrics/job/alert_test/instance/"
                      ++ arg_service args)%string in
    let alerts args := (arg_alertmanager_url args ++ "/api/v2/alerts")%string
    in
    let allowed args x :=
      (method (request x) = POST /\ url (request x) = push args) \/
      request x = mkRequest DELETE (push args) None [] \/
      request x = mkRequest GET (alerts args) None [] in
    (forall args,
        exists issued,
          trace (snd (dispatch args w)) = trace w ++ issued /\
          Forall (allowed args) issued) /\
    (forall argv,
        exists issued,
          trace (snd (main argv w)) = trace w ++ issued /\
          match parse_args argv with
          | Parsed args => Forall (allowed args) issued
          | SystemExit _ => issued = []
          end).
Proof.
  intros w push alerts allowed.
  assert (Hdispatch : forall args,
             exists issued,
               trace (snd (dispatch args w)) = trace w ++ issued /\
               Forall (allowed args) issued).
  { intros args.
    set (injector := mkAlertInjector (arg_prometheus_url args)
                       (arg_pushgateway_url args)).
    assert (Hidle : exists issued,
               trace w = trace w ++ issued /\ Forall (allowed args) issued).
    { exists []. rewrite app_nil_r. auto. }
    assert (Hposts : forall rq run,
               method rq = POST -> url rq = push args ->
               rounds_timeline rq (deadline w (arg_duration args)) w run ->
               exists issued,
                 trace (snd run) = trace w ++ issued /\
                 Forall (allowed args) issued).
    { intros rq run Hm Hu (issued & Ht & Hrq & _). exists issued.
      split; [exact Ht|]. eapply Forall_impl; [|exact Hrq].
      intros x Hx. unfold allowed. rewrite Hx. left. auto. }
    destruct (command args) as [c|] eqn:Hc;
      [|unfold dispatch, no_command; rewrite Hc; exact Hidle].
    destruct (String.eqb_spec c "") as [->|Hne];
      [unfold dispatch, no_command; rewrite Hc; exact Hidle|].
    rewrite (dispatch_command args w c Hc Hne).
    destruct (String.eqb c "inject-error-rate").
    { rewrite try_main_exit, exit_of_world.
      eapply Hposts; [| |apply error_rate_timeline]; reflexivity. }
    destruct (String.eqb c "inject-latency").
    { rewrite try_main_exit, exit_of_world.
      destruct (latency_metrics (arg_service args) (arg_latency args))
        as [metrics|e] eqn:Hm.
      - eapply Hposts; [| |apply latency_timeline, Hm]; reflexivity.
      - rewrite inject_high_latency_run.
        destruct (int_to_float (arg_duration args * 60)); [|exact Hidle].
        unfold inject_fuel.
        rewrite (latency_loop_unbuilt _ _ _ _ e _ _ Hm). exact Hidle. }
    destruct (String.eqb c "inject-resource-exhaustion").
    { rewrite try_main_exit, exit_of_world.
      destruct (resource_metrics (arg_service args) (arg_resource args)
                  (arg_usage args)) as [metrics|] eqn:Hm.
      - eapply Hposts; [| |apply resource_timeline, Hm]; reflexivity.
      - rewrite inject_resource_exhaustion_run.
        destruct (int_to_float (arg_duration args * 60)); [|exact Hidle].
        unfold inject_fuel.
        rewrite (resource_loop_unbuilt _ _ _ _ _ _ _ Hm). exact Hidle. }
    destruct (String.eqb c "clear").
    { rewrite try_main_exit, exit_of_world, clear_injected_metrics_world.
      pose proof (http_spec
        (mkRequest DELETE (push_url injector (arg_service args)) None []) w)
        as Hh.
      cbv zeta in Hh. destruct Hh as (x & Htr & Hrq & _).
      exists [x]. split; [exact Htr|]. constructor; [|constructor].
      unfold allowed. right; left. exact Hrq. }
    destruct (String.eqb c "wait-for-alert").
    { rewrite try_main_exit, exit_of_world.
      unfold wait_for_alert, wait_fuel. rewrite bind_time.
      destruct (wait_loop_run (mkAlertVerifier (arg_alertmanager_url args))
                  (arg_alert_name args) (arg_timeout args) (clock w)
                  (Z.to_nat ((arg_timeout args + 4) / 5)) w
                  (wait_fuel_enough (arg_timeout args) w))
        as (polls & Ht & Hp & _).
      exists polls. split; [exact Ht|].
      eapply Forall_impl; [|exact Hp]. intros x Hx.
      unfold allowed. right; right. exact Hx. }
    exact Hidle. }
  split; [exact Hdispatch|].
  intros argv. unfold main.
  destruct (parse_args argv) as [args|status]; [apply Hdispatch|].
  exists []. cbn [snd ret]. rewrite app_nil_r. auto.
Qed.

Lemma injector_only_pushgateway self self' service latency_ms resource_type
    usage_percent d w :
  pushgateway_url self = pushgateway_url self' ->
  inject_high_error_rate self service d w
  = inject_high_error_rate self' service d w /\
  inject_high_latency self service latency_ms d w
  = inject_high_latency self' service latency_ms d w /\
  inject_resource_exhaustion self service resource_type usage_percent d w
  = inject_resource_exhaustion self' service resource_type usage_percent d w /\
  clear_injected_metrics self service w
  = clear_injected_metrics self' service w.
Proof.
  intros Hu.
  assert (Hpush : push_url self service = push_url self' service)
    by (unfold push_url; rewrite Hu; reflexivity).
  split; [|split; [|split]].
  - rewrite !inject_high_error_rate_run.
    destruct (int_to_float (d * 60)); [|reflexivity].
    rewrite !error_rate_loop_rounds, Hpush. reflexivity.
  - rewrite !inject_high_latency_run.
    destruct (int_to_float (d * 60)); [|reflexivity]. unfold inject_fuel.
    destruct (latency_metrics service latency_ms) as [metrics|e] eqn:Hm.
    + rewrite !(latency_loop_rounds _ _ _ _ metrics _ Hm), Hpush.
      reflexivity.
    + rewrite !(latency_loop_unbuilt _ _ _ _ e _ _ Hm). reflexivity.
  - rewrite !inject_resource_exhaustion_run.
    destruct (int_to_float (d * 60)); [|reflexivity]. unfold inject_fuel.
    destruct (resource_metrics service resource_type usage_percent)
      as [metrics|] eqn:Hm.
    + rewrite !(resource_loop_rounds _ _ _ _ _ metrics _ Hm), Hpush.
      reflexivity.
    + rewrite !(resource_loop_unbuilt _ _ _ _ _ _ _ Hm). reflexivity.
  - unfold clear_injected_metrics. rewrite Hpush. reflexivity.
Qed.

Definition with_prometheus_url (args : Namespace) (p : string) : Namespace :=
  mkNamespace p (arg_pushgateway_url args) (arg_alertmanager_url args)
    (command args) (arg_service args) (arg_duration args) (arg_latency args)
    (arg_resource args) (arg_usage args) (arg_alert_name args)
    (arg_timeout args).

(** X10: the Prometheus URL has no effect.  The injector keeps it and
    never reads it: two injectors with the same push gateway URL behave
    alike in all four operations; and a run of [main] is the same, request
    for request, whatever [--prometheus-url] it was given: the dispatch
    does the same with two namespaces that differ in that URL only, and so
    does [main] with two command lines that [parse_args] turns into such
    namespaces. *)
Theorem prometheus_url_is_unused :
  forall p p' u args service latency_ms resource_type usage_percent
         duration_minutes w,
    (inject_high_error_rate (mkAlertInjector p u) service duration_minutes w
     = inject_high_error_rate (mkAlertInjector p' u) service
         duration_minutes w /\
     inject_high_latency (mkAlertInjector p u) service latency_ms
       duration_minutes w
     = inject_high_latency (mkAlertInjector p' u) service latency_ms
         duration_minutes w /\
     inject_resource_exhaustion (mkAlertInjector p u) service resource_type
       usage_percent duration_minutes w
     = inject_resource_exhaustion (mkAlertInjector p' u) service resource_type
         usage_percent duration_minutes w /\
     clear_injected_metrics (mkAlertInjector p u) service w
     = clear_injected_metrics (mkAlertInjector p' u) service w) /\
    dispatch (with_prometheus_url args p) w = dispatch args w /\
    (forall argv argv',
        parse_args argv = Parsed args ->
        parse_args argv' = Parsed (with_prometheus_url args p) ->
        main argv' w = main argv w).
Proof.
  intros p p' u args service latency_ms resource_type usage_percent d w.
  split; [apply injector_only_pushgateway; reflexivity|].
  assert (Hdispatch : dispatch (with_prometheus_url args p) w
                      = dispatch args w).
  { destruct (command args) as [c|] eqn:Hc;
      [|unfold dispatch, no_command; cbn [command with_prometheus_url];
        rewrite Hc; reflexivity].
    destruct (String.eqb_spec c "") as [->|Hne];
      [unfold dispatch, no_command; cbn [command with_prometheus_url];
       rewrite Hc; reflexivity|].
    rewrite (dispatch_command args w c Hc Hne).
    rewrite (dispatch_command (with_prometheus_url args p) w c Hc Hne).
    cbn [with_prometheus_url arg_prometheus_url arg_pushgateway_url
         arg_alertmanager_url arg_service arg_duration arg_latency
         arg_resource arg_usage arg_alert_name arg_timeout].
    destruct (injector_only_pushgateway
                (mkAlertInjector p (arg_pushgateway_url args))
                (mkAlertInjector (arg_prometheus_url args)
                   (arg_pushgateway_url args))
                (arg_service args) (arg_latency args) (arg_resource args)
                (arg_usage args) (arg_duration args) w eq_refl)
      as (H1 & H2 & H3 & H4).
    repeat match goal with
           | |- context [if String.eqb c ?k then _ else _] =>
               destruct (String.eqb c k);
               [rewrite !try_main_exit; congruence|]
           end.
    reflexivity. }
  split; [exact Hdispatch|].
  intros argv argv' Hp Hp'.
  rewrite (main_parsed argv args w Hp), (main_parsed argv' _ w Hp').
  exact Hdispatch.
Qed.

(** ** What the payloads say *)

(** The value of label [key] of a sample. *)
Fixpoint label_value (key : string) (labels : list (string * string))
    : option string :=
  match labels with
  | [] => None
  | (k, v) :: rest => if String.eqb k key then Some v else label_value key rest
  end.

(** The buckets of the latency histogram, in the order of the payload:
    upper bound and count. *)
Fixpoint buckets (p : Payload) : list (option string * MetricValue) :=
  match p with
  | [] => []
  | Sample n labels v :: rest =>
      if String.eqb n "http_request_duration_seconds_bucket"
      then (label_value "le" labels, v) :: buckets rest
      else buckets rest
  | _ :: rest => buckets rest
  end.

Fixpoint cumulative (counts : list MetricValue) (floor : Z) : Prop :=
  match counts with
  | [] => True
  | VInt n :: rest => floor <= n /\ cumulative rest n
  | _ :: rest => False
  end.

(** A well-formed histogram: the bucket counts never decrease, the last
    bucket is the one of [+Inf], and its count is the [_count] sample. *)
Definition well_formed_histogram (p : Payload) : Prop :=
  cumulative (map snd (buckets p)) 0 /\
  exists total,
    last (buckets p) (None, VInt 0) = (Some "+Inf", VInt total) /\
    sample_values "http_request_duration_seconds_count" p = [VInt total].

(** A service name that the f-strings can paste between the double quotes
    of a label value as it is: it has no double quote, no backslash and no
    line feed, the characters the exposition format wants escaped.  The
    script escapes nothing, so it is for such a name that the text it pushes
    has the sample lines the payload of the model holds. *)
Definition label_safe (service : string) : bool :=
  forallb (fun c => negb (existsb (Nat.eqb (nat_of_ascii c)) [34; 92; 10]%nat))
          (list_ascii_of_string service).

(** X11: for a service name with no double quote, backslash or line feed,
    every payload that [inject_high_error_rate] and [inject_high_latency]
    push holds a well-formed latency histogram, whatever the latency:
    cumulative bucket counts, a last bucket [le="+Inf"], and a [_count]
    equal to that bucket. *)
Theorem pushed_histograms_are_well_formed :
  forall self service latency_ms duration_minutes w,
    label_safe service = true ->
    let pushes_histograms run :=
      exists issued,
        trace (snd run) = trace w ++ issued /\
        Forall (fun x => exists p, data (request x) = Some p /\
                                   well_formed_histogram p) issued in
    pushes_histograms (inject_high_error_rate self service duration_minutes w)
    /\
    pushes_histograms
      (inject_high_latency self service latency_ms duration_minutes w).
Proof.
  intros self service latency_ms d w _ pushes_histograms.
  assert (Hgen : forall u p h run,
             well_formed_histogram p ->
             rounds_timeline (mkRequest POST u (Some p) h) (deadline w d) w run
             -> pushes_histograms run).
  { intros u p h run Hp (issued & Ht & Hrq & _). exists issued.
    split; [exact Ht|]. eapply Forall_impl; [|exact Hrq].
    intros x ->. exists p. auto. }
  split.
  - eapply Hgen; [|apply error_rate_timeline].
    unfold well_formed_histogram. cbn. split; [lia|].
    exists 250. split; reflexivity.
  - destruct (latency_metrics service latency_ms) as [metrics|e] eqn:Hm.
    + eapply Hgen; [|apply latency_timeline, Hm].
      unfold latency_metrics, rbind in Hm.
      destruct (int_true_divide latency_ms 1000) as [q|]; [|discriminate].
      injection Hm as <-.
      unfold well_formed_histogram. cbn. split; [lia|].
      exists 100. split; reflexivity.
    + rewrite inject_high_latency_run.
      destruct (int_to_float (d * 60));
        [|exists []; cbn [snd]; rewrite app_nil_r; auto].
      unfold inject_fuel. rewrite (latency_loop_unbuilt _ _ _ _ e _ _ Hm).
      exists []. rewrite app_nil_r. auto.
Qed.

(** X12: every payload that [inject_resource_exhaustion] pushes reports a
    usage that is exactly [usage_percent] hundredths of the limit it
    reports beside it: for "memory" [usage_percent * 10^7] bytes of a limit
    of [10^9], for "cpu" [usage_percent * 1000] of a quota of [100000]. *)
Theorem resource_usage_is_the_asked_percentage :
  forall self service resource_type usage_percent duration_minutes w,
    let run := inject_resource_exhaustion self service resource_type
                 usage_percent duration_minutes w in
    let usage_name :=
      if String.eqb resource_type "memory"
      then "container_memory_usage_bytes"
      else "container_cpu_usage_seconds_total" in
    let limit_name :=
      if String.eqb resource_type "memory"
      then "container_spec_memory_limit_bytes"
      else "container_spec_cpu_quota" in
    exists issued,
      trace (snd run) = trace w ++ issued /\
      Forall (fun x =>
                exists p usage limit,
                  data (request x) = Some p /\
                  sample_values usage_name p = [VInt usage] /\
                  sample_values limit_name p = [VInt limit] /\
                  0 < limit /\
                  usage * 100 = usage_percent * limit)
             issued.
Proof.
  intros self service resource_type usage_percent d w run usage_name
    limit_name.
  subst run.
  destruct (resource_metrics service resource_type usage_percent)
    as [metrics|] eqn:Hm.
  - destruct (resource_timeline self service resource_type usage_percent d w
                metrics Hm) as (issued & Ht & Hrq & _).
    exists issued. split; [exact Ht|].
    eapply Forall_impl; [|exact Hrq]. intros x ->. exists metrics.
    subst usage_name limit_name. unfold resource_metrics in Hm.
    destruct (String.eqb resource_type "memory").
    + injection Hm as <-. exists (usage_percent * 10 ^ 7), (100 * 10 ^ 7).
      repeat split; lia.
    + destruct (String.eqb resource_type "cpu"); [|discriminate].
      injection Hm as <-. exists (usage_percent * 1000), 100000.
      repeat split; lia.
  - rewrite inject_resource_exhaustion_run.
    destruct (int_to_float (d * 60));
      [|exists []; cbn [snd]; rewrite app_nil_r; auto].
    unfold inject_fuel. rewrite (resource_loop_unbuilt _ _ _ _ _ _ _ Hm).
    exists []. rewrite app_nil_r. auto.
Qed.

(** ** A check that passes and a wait *)





End Script.

(** * Concrete runs *)

(** The range of a [float]: the largest [int] that converts is the one just
    below [2^1024 - 2^970], half a unit in the last place above the largest
    [float]. *)
Example float_range :
  in_float_range 0 /\ in_float_range 300 /\
  in_float_range (2 ^ 1024 - 2 ^ 970 - 1) /\
  ~ in_float_range (2 ^ 1024 - 2 ^ 970) /\
  ~ in_float_range (3 * 10 ^ 306 * 60) /\
  ~ in_float_range (10 ^ 400 * 60) /\
  ~ in_float_range (- 10 ^ 400 * 60).
Proof.
  repeat split;
    try (eexists; vm_compute; reflexivity);
    intros [f Hf]; vm_compute in Hf; discriminate.
Qed.

Definition accepted_exchange (x : Exchange) : Prop :=
  exists r, outcome x = Some (Answered r) /\
            (status_code r = 200 \/ status_code r = 202).

(** C1 as stated fails: against a gateway that answers every push with 500
    each injector returns [True] after one minute, although none of its
    POSTs received 200 or 202. *)
Lemma injection_true_despite_status_500 :
  let run1 := inject_high_error_rate (gateway 500) None test_injector
                "test-service" 1 world0 in
  let run2 := inject_high_latency (gateway 500) None test_injector
                "test-service" 2000 1 world0 in
  let run3 := inject_resource_exhaustion (gateway 500) None test_injector
                "test-service" "memory" 95 1 world0 in
  ~ (fst run1 = Returned true <-> Forall accepted_exchange (trace (snd run1))) /\
  ~ (fst run2 = Returned true <-> Forall accepted_exchange (trace (snd run2))) /\
  ~ (fst run3 = Returned true <-> Forall accepted_exchange (trace (snd run3))).
Proof.
  vm_compute. repeat split; intros [H _]; specialize (H eq_refl);
    inversion H as [|? ? (r & Hr & Hs) _]; inversion Hr; subst;
    destruct Hs; discriminate.
Qed.

Lemma printable_small n : (Z.abs n <? 10 ^ 640) = true -> printable n.
Proof. unfold printable. apply Z.ltb_lt. Qed.

Lemma injection_true_iff_no_transport_error_witness :
  (0 < 1 /\
   ("memory" = "memory" \/ "memory" = "cpu") /\
   printable 1 /\ printable 2000 /\ printable (95 * 10 ^ 7)) /\
  injection_report None
    "http://pushgateway:9091/metrics/job/alert_test/instance/test-service"
    (fun e => e = OverflowError /\ ~ in_float_range (1 * 60)) world0
    (inject_high_error_rate (gateway 202) None test_injector
       "test-service" 1 world0) /\
  injection_report None
    "http://pushgateway:9091/metrics/job/alert_test/instance/test-service"
    (fun e => (e = OverflowError /\ ~ in_float_range (1 * 60)) \/
              (e = OverflowError /\
               int_true_divide 2000 1000 = Err OverflowError)) world0
    (inject_high_latency (gateway 202) None test_injector
       "test-service" 2000 1 world0) /\
  injection_report None
    "http://pushgateway:9091/metrics/job/alert_test/instance/test-service"
    (fun e => e = OverflowError /\ ~ in_float_range (1 * 60)) world0
    (inject_resource_exhaustion (gateway 202) None test_injector
       "test-service" "memory" 95 1 world0) /\
  (~ in_float_range (1 * 60) ->
   inject_high_error_rate (gateway 202) None test_injector "test-service" 1
     world0 = (Raised OverflowError, world0) /\
   inject_high_latency (gateway 202) None test_injector "test-service" 2000 1
     world0 = (Raised OverflowError, world0) /\
   inject_resource_exhaustion (gateway 202) None test_injector "test-service"
     "memory" 95 1 world0 = (Raised OverflowError, world0)).
Proof.
  split.
  - split; [lia|]. split; [left; reflexivity|].
    split; [|split]; apply printable_small; vm_compute; reflexivity.
  - apply (injection_true_iff_no_transport_error (gateway 202) None
             test_injector "test-service" 2000 "memory" 95 1 world0);
      [lia | left; reflexivity | ..];
      apply printable_small; vm_compute; reflexivity.
Defined.

(** C2 (what the code does at the failing input): with
    [duration_minutes = 0] the resource type "disk", which is neither
    "memory" nor "cpu", is never looked at: the call returns [True], not
    [False].  The test that turns an unknown resource type down is inside
    the loop body, so it is made only when the loop is entered: with one
    minute the same call returns [False] without a request. *)
Theorem unknown_resource_type_accepted_at_zero :
  "disk" <> "memory" /\ "disk" <> "cpu" /\
  inject_resource_exhaustion (gateway 202) None test_injector
    "test-service" "disk" 95 0 world0 = (Returned true, world0) /\
  fst (inject_resource_exhaustion (gateway 202) None test_injector
         "test-service" "disk" 95 0 world0) <> Returned false /\
  inject_resource_exhaustion (gateway 202) None test_injector
    "test-service" "disk" 95 1 world0 = (Returned false, world0).
Proof.
  split; [discriminate|]. split; [discriminate|].
  split; [vm_compute; reflexivity|].
  split; [vm_compute; discriminate|vm_compute; reflexivity].
Qed.

(** C10 as stated fails: [duration_minutes = -10^400] is not positive, and
    each of the three injectors raises [OverflowError] instead of returning
    [True]: [duration_minutes * 60] does not convert to a [float]. *)
Lemma negative_duration_out_of_range :
  - 10 ^ 400 <= 0 /\
  inject_high_error_rate (gateway 202) None test_injector "test-service"
    (- 10 ^ 400) world0 = (Raised OverflowError, world0) /\
  inject_high_latency (gateway 202) None test_injector "test-service" 2000
    (- 10 ^ 400) world0 = (Raised OverflowError, world0) /\
  inject_resource_exhaustion (gateway 202) None test_injector "test-service"
    "memory" 95 (- 10 ^ 400) world0 = (Raised OverflowError, world0) /\
  fst (inject_high_error_rate (gateway 202) None test_injector "test-service"
         (- 10 ^ 400) world0) <> Returned true.
Proof.
  split; [apply Z.leb_le; vm_compute; reflexivity|].
  split; [vm_compute; reflexivity|].
  split; [vm_compute; reflexivity|].
  split; [vm_compute; reflexivity|vm_compute; discriminate].
Qed.

Lemma nonpositive_duration_returns_true_witness :
  (0 <= 0 /\ printable 0 /\ printable 2000 /\ printable 95 /\
   in_float_range (0 * 60)) /\
  inject_high_error_rate (gateway 202) None test_injector "test-service" 0
    world0 = (Returned true, world0) /\
  inject_high_latency (gateway 202) None test_injector "test-service" 2000 0
    world0 = (Returned true, world0) /\
  inject_resource_exhaustion (gateway 202) None test_injector "test-service"
    "disk" 95 0 world0 = (Returned true, world0).
Proof.
  assert (Hrange : in_float_range (0 * 60))
    by (eexists; vm_compute; reflexivity).
  split.
  - split; [lia|].
    split; [|split; [|split]];
      try (apply printable_small; vm_compute; reflexivity).
    exact Hrange.
  - destruct (nonpositive_duration_returns_true (gateway 202) None
                test_injector "test-service" 2000 "disk" 95 0 world0)
      as [Htrue _];
      [lia | apply printable_small; vm_compute; reflexivity..|].
    exact (Htrue Hrange).
Defined.

(** One minute against a gateway that accepts: four pushes, 15 seconds
    apart, and [True]. *)
Example error_rate_one_minute :
  let run := inject_high_error_rate (gateway 202) None test_injector
               "test-service" 1 world0 in
  fst run = Returned true /\
  map started (trace (snd run)) = [0; 15050; 30100; 45150] /\
  clock (snd run) = 60200.
Proof. vm_compute. repeat split. Qed.

(** A gateway that cannot be reached: one push, then [False]. *)
Example error_rate_unreachable :
  let run := inject_high_error_rate unreachable None test_injector
               "test-service" 1 world0 in
  fst run = Returned false /\
  map outcome (trace (snd run)) = [Some TransportError].
Proof. vm_compute. repeat split. Qed.

(** 2000 ms: every push carries a sum of 200.0 and a count of 100. *)
Example latency_two_seconds :
  let run := inject_high_latency (gateway 202) None test_injector
               "test-service" 2000 1 world0 in
  map (fun x => option_map
                  (sample_values "http_request_duration_seconds_sum")
                  (data (request x)))
      (trace (snd run))
  = repeat (Some [VFloat (S754_finite false 7036874417766400 (-45))]) 4.
Proof. vm_compute. reflexivity. Qed.

(** A duration that does not fit a [float]: [OverflowError], whatever the
    resource type, and nothing sent. *)
Example duration_out_of_range :
  inject_resource_exhaustion (gateway 202) None test_injector "test-service"
    "disk" 95 (10 ^ 400) world0 = (Raised OverflowError, world0) /\
  inject_high_error_rate (gateway 202) None test_injector "test-service"
    (3 * 10 ^ 306) world0 = (Raised OverflowError, world0).
Proof. vm_compute. split; reflexivity. Qed.

(** [clear]: 202 is success, 404 and an unreachable gateway are not. *)
Example clear_runs :
  fst (clear_injected_metrics (gateway 202) None test_injector
         "test-service" world0) = Returned true /\
  fst (clear_injected_metrics (gateway 404) None test_injector
         "test-service" world0) = Returned false /\
  fst (clear_injected_metrics unreachable None test_injector
         "test-service" world0) = Returned false.
Proof. vm_compute. repeat split. Qed.

(** Only the active entries come back, in their order; one entry that is no
    alert record, or an unreachable alert manager, leaves nothing. *)
Example active_alerts_runs :
  fst (get_active_alerts
         (alertmanager [high_error_rate;
                        alert_record "HighLatency" "api" "suppressed";
                        alert_record "DiskFull" "db" "active"])
         None test_verifier world0)
  = Returned [high_error_rate; alert_record "DiskFull" "db" "active"] /\
  fst (get_active_alerts (alertmanager [high_error_rate; JInt 5])
         None test_verifier world0) = Returned [] /\
  fst (get_active_alerts unreachable None test_verifier world0)
  = Returned [].
Proof. vm_compute. repeat split. Qed.

(** The alert appears after 20 seconds: the fifth poll, started at 20.2 s,
    is the first to show it. *)
Example wait_sees_alert :
  let run := wait_for_alert (test_bench 20000) None test_verifier
               "HighErrorRate" 60 world0 in
  fst run = Returned true /\
  map started (trace (snd run)) = [0; 5050; 10100; 15150; 20200] /\
  clock (snd run) = 20250.
Proof. vm_compute. repeat split. Qed.

(** With a timeout of 10 seconds the same wait gives up after two polls. *)
Example wait_times_out :
  let run := wait_for_alert (test_bench 20000) None test_verifier
               "HighErrorRate" 10 world0 in
  fst run = Returned false /\
  map started (trace (snd run)) = [0; 5050] /\
  clock (snd run) = 10100.
Proof. vm_compute. repeat split. Qed.

(** Ctrl-C 7 seconds into the wait comes during the sleep after the second
    poll: the wait ends there, with two polls in the log. *)
Example wait_interrupted :
  let run := wait_for_alert (test_bench 20000) (Some 7000) test_verifier
               "HighErrorRate" 60 world0 in
  fst run = Raised KeyboardInterrupt /\
  map started (trace (snd run)) = [0; 5050] /\
  clock (snd run) = 7000.
Proof. vm_compute. repeat split. Qed.

Example verify_labels_runs :
  fst (verify_alert_labels (alertmanager [high_error_rate]) None
         test_verifier "HighErrorRate"
         [("alertname", "HighErrorRate"); ("service", "test-service")]
         world0) = Returned true /\
  fst (verify_alert_labels (alertmanager [high_error_rate]) None
         test_verifier "HighErrorRate"
         [("service", "test-service"); ("severity", "critical")]
         world0) = Returned false /\
  fst (verify_alert_labels (alertmanager [high_error_rate]) None
         test_verifier "HighLatency" [] world0) = Returned false.
Proof. vm_compute. repeat split. Qed.

Example verify_annotations_runs :
  fst (verify_alert_annotations (alertmanager [high_error_rate]) None
         test_verifier "HighErrorRate" ["summary"] world0) = Returned true /\
  fst (verify_alert_annotations (alertmanager [high_error_rate]) None
         test_verifier "HighErrorRate" ["summary"; "runbook_url"] world0)
  = Returned false /\
  fst (verify_alert_annotations (alertmanager [high_error_rate]) None
         test_verifier "HighLatency" ["summary"] world0) = Returned false.
Proof. vm_compute. repeat split. Qed.

(** ** Command lines *)

(** The namespace of a command line that gives a sub-command and nothing
    else: every option at the default that [main] declares. *)
Definition default_args (cmd : option string) : Namespace :=
  mkNamespace "http://prometheus:9090" "http://pushgateway:9091"
    "http://alertmanager:9093" cmd "test-service" 5 2000 "memory" 95
    EmptyString 180.

Definition known_commandb (c : string) : bool :=
  existsb (String.eqb c)
    ["inject-error-rate"; "inject-latency"; "inject-resource-exhaustion";
     "clear"; "wait-for-alert"].

Fixpoint same_words (a b : list string) : bool :=
  match a, b with
  | [], [] => true
  | x :: a', y :: b' => String.eqb x y && same_words a' b'
  | _, _ => false
  end.

(** A parser for the concrete runs.  It meets [argparse_contract], and the
    namespaces it returns are those of argparse: for no argument at all,
    for a sub-command alone (but [wait-for-alert], which wants a name), and
    for the two command lines of the end-to-end scenario.  It answers [-h]
    and [--help] with the exit status of argparse.  Every other command
    line it refuses, also those that argparse accepts: it stands for
    argparse on the command lines of the runs below and no further. *)
Definition strict_parser (argv : list string) : Parse :=
  match argv with
  | [] => Parsed (default_args None)
  | word :: rest =>
      if is_option word then
        if same_words argv ["-h"] || same_words argv ["--help"]
        then SystemExit 0 else SystemExit 2
      else if known_commandb word then
        if same_words argv ["inject-error-rate"; "--service"; "test-service";
                            "--duration"; "1"]
        then Parsed (test_args (Some "inject-error-rate"))
        else if same_words argv ["wait-for-alert"; "HighErrorRate";
                                 "--timeout"; "60"]
        then Parsed (test_args (Some "wait-for-alert"))
        else
          match rest with
          | [] => if String.eqb word "wait-for-alert" then SystemExit 2
                  else Parsed (default_args (Some word))
          | _ => SystemExit 2
          end
      else SystemExit 2
  end.

Lemma known_commandb_spec c : known_commandb c = true <-> known_command c.
Proof.
  unfold known_commandb, known_command. cbn [existsb].
  rewrite !orb_true_iff, !String.eqb_eq. intuition discriminate.
Qed.

Lemma strict_parser_contract : argparse_contract strict_parser.
Proof.
  split; [|split].
  - intros [|word rest] status; [discriminate|].
    unfold strict_parser.
    destruct (is_option word);
      [destruct (_ || _); intros [= <-]; auto|].
    destruct (known_commandb word); [|intros [= <-]; auto].
    destruct (same_words _ _); [discriminate|].
    destruct (same_words _ _); [discriminate|].
    destruct rest; [destruct (String.eqb word _)|];
      try discriminate; intros [= <-]; auto.
  - intros [|word rest] args; [intros [= <-]; left; reflexivity|].
    unfold strict_parser.
    destruct (is_option word); [destruct (_ || _); discriminate|].
    destruct (known_commandb word) eqn:Hk; [|discriminate].
    apply known_commandb_spec in Hk.
    destruct (same_words _ _);
      [intros [= <-]; right; exists "inject-error-rate";
       unfold known_command; auto|].
    destruct (same_words _ _);
      [intros [= <-]; right; exists "wait-for-alert";
       unfold known_command; auto 6|].
    destruct rest; [destruct (String.eqb word _)|]; try discriminate.
    intros [= <-]. right. exists word. auto.
  - intros word rest Hopt Hnone. unfold strict_parser. rewrite Hopt.
    destruct (known_commandb word) eqn:Hk; [|reflexivity].
    apply known_commandb_spec in Hk. contradiction.
Qed.

Lemma main_exit_status_witness :
  argparse_contract strict_parser /\
  main (gateway 202) None strict_parser ["restart"] world0
  = (Returned 2, world0) /\
  main (gateway 202) None strict_parser ["clear"] world0
  = exit_of (clear_injected_metrics (gateway 202) None
               (mkAlertInjector "http://prometheus:9090"
                  "http://pushgateway:9091")
               "test-service" world0).
Proof.
  split; [exact strict_parser_contract|].
  destruct (main_exit_status (gateway 202) None strict_parser ["restart"]
              world0 strict_parser_contract) as (_ & Hunknown & _).
  destruct (main_exit_status (gateway 202) None strict_parser ["clear"]
              world0 strict_parser_contract) as (_ & _ & Hparsed & _).
  split.
  - apply (Hunknown "restart" []); [reflexivity|reflexivity|].
    unfold known_command. intros [H|[H|[H|[H|H]]]]; discriminate.
  - destruct (Hparsed (default_args (Some "clear")) eq_refl)
      as (_ & _ & _ & _ & Hclear & _).
    apply Hclear. reflexivity.
Defined.

(** Every exit status can be had: success; a failed operation; Ctrl-C
    during the first sleep; no sub-command; the help; an unknown
    sub-command, which argparse answers with 2; and, from the dispatch, an
    exception caught at top level (an alert whose labels are [null], a
    latency whose quotient overflows, a duration out of range). *)
Example exit_statuses :
  let inject := ["inject-error-rate"; "--service"; "test-service";
                 "--duration"; "1"] in
  fst (main (gateway 202) None strict_parser inject world0) = Returned 0 /\
  fst (main unreachable None strict_parser ["clear"] world0) = Returned 1 /\
  fst (main (gateway 202) (Some 7000) strict_parser inject world0)
  = Returned 130 /\
  fst (main (gateway 202) None strict_parser [] world0) = Returned 1 /\
  fst (main (gateway 202) None strict_parser ["--help"] world0)
  = Returned 0 /\
  fst (main (gateway 202) None strict_parser ["restart"] world0)
  = Returned 2 /\
  fst (dispatch (alertmanager [JObj [("labels", JNull);
                                     ("status", JObj [("state", JStr "active")])]])
         None (test_args (Some "wait-for-alert")) world0)
  = Returned 1 /\
  fst (dispatch (gateway 202) None
         (mkNamespace "http://prometheus:9090" "http://pushgateway:9091"
            "http://alertmanager:9093" (Some "inject-latency")
            "test-service" 1 (10 ^ 400) "memory" 95 EmptyString 60) world0)
  = Returned 1 /\
  fst (dispatch (gateway 202) None
         (mkNamespace "http://prometheus:9090" "http://pushgateway:9091"
            "http://alertmanager:9093" (Some "inject-error-rate")
            "test-service" (10 ^ 400) 2000 "memory" 95 EmptyString 60) world0)
  = Returned 1.
Proof. vm_compute. repeat split. Qed.

(** The end-to-end scenario: the alert shows 20 seconds into the run;
    [inject-error-rate --service test-service --duration 1] and then
    [wait-for-alert HighErrorRate --timeout 60] both exit with 0. *)
Example end_to_end :
  let inject := main (test_bench 20000) None strict_parser
                  ["inject-error-rate"; "--service"; "test-service";
                   "--duration"; "1"] world0 in
  let wait := main (test_bench 20000) None strict_parser
                ["wait-for-alert"; "HighErrorRate"; "--timeout"; "60"]
                (snd inject) in
  fst inject = Returned 0 /\ fst wait = Returned 0.
Proof. vm_compute. repeat split. Qed.

(** Binary64 rounding shows for other latencies: for 7 ms the sum is
    6305039478318695 * 2^-53 (printed 0.7000000000000001), one unit in the
    last place above the [float] nearest to 0.7. *)
Example latency_seven_milliseconds :
  (q <~ int_true_divide 7 1000 ;; Ok (float_mul_int q 100))%result
  = Ok (S754_finite false 6305039478318695 (-53)) /\
  int_true_divide 7 10 = Ok (S754_finite false 6305039478318694 (-53)).
Proof. vm_compute. split; reflexivity. Qed.

(** * Concrete runs of the further properties *)

(** A push gateway that answers at once with 202. *)
Definition instant_gateway : list Exchange -> Z -> Request -> Reply :=
  fun _ _ _ => mkReply 0 (Answered (mkResponse 202 None)).

Lemma injection_instant_gateway_witness :
  Forall (fun run =>
            fst run = Returned true /\
            (exists issued,
                trace (snd run) = trace world0 ++ issued /\
                Z.of_nat (List.length issued) = 4 * 1) /\
            clock (snd run) = clock world0 + 1 * 60 * 1000)
    (injections instant_gateway None test_injector "test-service" 2000
       "memory" 95 1 world0).
Proof.
  apply (injection_instant_gateway instant_gateway None test_injector
           "test-service" 2000 "memory" 95 1 world0).
  - intros tr t rq. reflexivity.
  - intros tr t rq. discriminate.
  - reflexivity.
  - lia.
  - eexists. vm_compute. reflexivity.
  - vm_compute. discriminate.
  - left. reflexivity.
  - apply printable_small. vm_compute. reflexivity.
Defined.

Lemma wait_false_overrun_witness :
  let run := wait_for_alert (test_bench 20000) None test_verifier
               "HighErrorRate" 10 world0 in
  exists pre x,
    trace (snd run) = trace world0 ++ pre ++ [x] /\
    started x - clock world0 < 10 * 1000 /\
    clock (snd run) = finished x + 5 * 1000 /\
    10 * 1000 <= clock (snd run) - clock world0.
Proof.
  apply (wait_false_overrun (test_bench 20000) None test_verifier
           "HighErrorRate" 10 world0).
  - vm_compute. reflexivity.
  - lia.
Defined.


Lemma pushed_histograms_are_well_formed_witness :
  label_safe "test-service" = true /\
  (exists issued,
      trace (snd (inject_high_error_rate (gateway 202) None test_injector
                    "test-service" 1 world0)) = trace world0 ++ issued /\
      Forall (fun x => exists p, data (request x) = Some p /\
                                 well_formed_histogram p) issued) /\
  (exists issued,
      trace (snd (inject_high_latency (gateway 202) None test_injector
                    "test-service" 2000 1 world0)) = trace world0 ++ issued /\
      Forall (fun x => exists p, data (request x) = Some p /\
                                 well_formed_histogram p) issued).
Proof.
  split; [reflexivity|].
  apply (pushed_histograms_are_well_formed (gateway 202) None test_injector
           "test-service" 2000 1 world0).
  reflexivity.
Defined.

